(** * Inventory API: services, authentication and endpoints

    A shallow embedding of the inventory back end
    ([app/database/models.py], [app/schemas/item_schemas.py],
    [app/services/inventory_service.py], [app/utils/auth.py],
    [app/api/v1/auth.py], [app/api/v1/inventory.py]).

    Modelling conventions.
    - Python [int] is [Z], [float] is a binary64 [float], [str] is [string],
      [Optional[T]] is [option T], a UUID is the string that denotes it.
    - A [datetime] is a number of microseconds since the epoch and a
      [timedelta] a number of microseconds; the wall clock is an input.
    - A table is a list of rows; the order of the list stands for the order
      in which the engine happens to return rows, which INSERT extends at the
      end and UPDATE changes by writing the new version of a row at the end.
      No property below depends on it beyond that.  The timestamp columns,
      which only column defaults write and no code reads, are left out of the
      rows.
    - The schema of [models.py] is enforced where the engine enforces it, at
      the flush that [db.commit()] performs: primary keys and the unique
      email, the three foreign keys, and the range of the [Integer] columns.
    - A SQLAlchemy session is a pair of stores: the rows the database has
      committed and the rows as the session sees them.  A [db.commit()] that
      the engine accepts makes the second the first; one that it refuses
      raises and rolls the session back; closing the session drops what was
      not committed.
    - Exceptions are values: every computation returns either an exception
      or a result, together with the session it leaves behind. *)

From Stdlib Require Import ZArith List Floats.
From stdpp Require Import base option list gmap strings.

Local Open Scope string_scope.
Local Open Scope list_scope.
Local Open Scope Z_scope.

(** ** Basic types *)

Definition UUID := string.
Definition datetime := Z.
Definition timedelta := Z.

(** [timedelta(minutes=m)] *)
Definition timedelta_minutes (m : Z) : timedelta := m * 60 * 1000000.

(** Truth value of a [timedelta]: zero is false. *)
Definition timedelta_bool (d : timedelta) : bool := negb (d =? 0).

(** Values stored in a JWT payload dictionary. *)
Inductive Value :=
| VStr (s : string)
| VDatetime (t : datetime).

#[global] Instance Value_eq_dec : EqDecision Value.
Proof. solve_decision. Defined.

(** Exceptions raised by the code or by the libraries it calls. *)
Inductive exn :=
| ValueError (msg : string)
| TypeError (msg : string)
| InvalidRequestError (msg : string)
| IntegrityError (msg : string)
| DataError (msg : string)
| HTTPException (status_code : Z) (detail : string)
    (headers : list (string * string)).

#[global] Instance exn_eq_dec : EqDecision exn.
Proof. solve_decision. Defined.

(** ** Rows ([app/database/models.py]) *)

Module User.
Record t := mk {
  id : UUID;
  name : string;
  email : string;
  password : string
}.
Definition columns : list string :=
  ["id"; "name"; "email"; "password"; "date_creation"; "date_update"].
End User.

Module Category.
Record t := mk {
  id : UUID;
  name : string;
  description : option string
}.
Definition columns : list string :=
  ["id"; "name"; "description"; "date_creation"; "date_update"].
Definition set_name (v : string) (c : t) : t := mk (id c) v (description c).
Definition set_description (v : option string) (c : t) : t := mk (id c) (name c) v.
End Category.

Module Product.
Record t := mk {
  id : UUID;
  name : string;
  description : option string;
  price : float;
  stock_quantity : Z;
  image_url : option string;
  category_id : UUID;
  user_id : UUID
}.
Definition columns : list string :=
  ["id"; "name"; "description"; "price"; "stock_quantity"; "image_url";
   "category_id"; "user_id"; "date_creation"; "date_update"].
Definition set_name (v : string) (p : t) : t :=
  mk (id p) v (description p) (price p) (stock_quantity p) (image_url p)
     (category_id p) (user_id p).
Definition set_description (v : option string) (p : t) : t :=
  mk (id p) (name p) v (price p) (stock_quantity p) (image_url p)
     (category_id p) (user_id p).
Definition set_price (v : float) (p : t) : t :=
  mk (id p) (name p) (description p) v (stock_quantity p) (image_url p)
     (category_id p) (user_id p).
Definition set_stock_quantity (v : Z) (p : t) : t :=
  mk (id p) (name p) (description p) (price p) v (image_url p)
     (category_id p) (user_id p).
Definition set_image_url (v : option string) (p : t) : t :=
  mk (id p) (name p) (description p) (price p) (stock_quantity p) v
     (category_id p) (user_id p).
Definition set_category_id (v : UUID) (p : t) : t :=
  mk (id p) (name p) (description p) (price p) (stock_quantity p)
     (image_url p) v (user_id p).
End Product.

Module InventoryTransaction.
Record t := mk {
  id : UUID;
  product_id : UUID;
  type : string;
  quantity : Z;
  description : option string
}.
(** The mapped class declares no [user_id] column. *)
Definition columns : list string :=
  ["id"; "product_id"; "type"; "quantity"; "date_transaction"; "description"].
End InventoryTransaction.

(** ** Request schemas ([app/schemas/item_schemas.py]) *)

Module CategoryCreate.
Record t := mk { name : string; description : option string }.
End CategoryCreate.

Module ProductCreate.
Record t := mk {
  name : string;
  description : option string;
  price : float;
  stock_quantity : Z;
  image_url : option string;
  category_id : UUID;
  user_id : UUID
}.
(** [price: float = Field(gt=0)], [stock_quantity: int = Field(gt=0)] *)
Definition validate (p : t) : bool :=
  PrimFloat.ltb 0%float (price p) && (0 <? stock_quantity p).
End ProductCreate.

Module InventoryTransactionCreate.
Record t := mk {
  product_id : UUID;
  type : string;
  quantity : Z;
  description : option string
}.
(** [type: str] is unconstrained; [quantity: int = Field(gt=0)] *)
Definition validate (x : t) : bool := 0 <? quantity x.
End InventoryTransactionCreate.

(** ** The database and the session *)

Record DB := mkDB {
  users : list User.t;
  categories : list Category.t;
  products : list Product.t;
  inventory_transactions : list InventoryTransaction.t
}.

Definition with_users (f : list User.t → list User.t) (d : DB) : DB :=
  mkDB (f (users d)) (categories d) (products d) (inventory_transactions d).
Definition with_categories (f : list Category.t → list Category.t) (d : DB) : DB :=
  mkDB (users d) (f (categories d)) (products d) (inventory_transactions d).
Definition with_products (f : list Product.t → list Product.t) (d : DB) : DB :=
  mkDB (users d) (categories d) (f (products d)) (inventory_transactions d).
Definition with_inventory_transactions
    (f : list InventoryTransaction.t → list InventoryTransaction.t) (d : DB) : DB :=
  mkDB (users d) (categories d) (products d) (f (inventory_transactions d)).

Record Session := mkSession {
  committed : DB;
  pending : DB
}.

(** The state-and-exception monad of code that runs inside a session. *)
Definition Sess (A : Type) : Type := Session → (exn + A) * Session.

Definition ret {A} (a : A) : Sess A := λ s, (inr a, s).
Definition raise {A} (e : exn) : Sess A := λ s, (inl e, s).
Definition bind {A B} (m : Sess A) (k : A → Sess B) : Sess B :=
  λ s, match m s with
       | (inl e, s') => (inl e, s')
       | (inr a, s') => k a s'
       end.

Declare Scope sess_scope.
Delimit Scope sess_scope with sess.
Notation "x <- m ;; k" := (bind m (λ x, k))
  (at level 100, m at next level, right associativity) : sess_scope.
Notation "m ;; k" := (bind m (λ _, k))
  (at level 100, right associativity) : sess_scope.
Local Open Scope sess_scope.

(** [try: m except ValueError as e: h(str(e))] *)
Definition try_except_ValueError {A} (m : Sess A) (h : string → Sess A) : Sess A :=
  λ s, match m s with
       | (inl (ValueError msg), s') => h msg s'
       | r => r
       end.

(** A [Query] object: a description of rows, evaluated only when a
    terminal method such as [first] is called. *)
Record Query (A : Type) := mkQuery {
  from_table : DB → list A;
  where_clause : A → bool
}.
Arguments mkQuery {A} _ _.
Arguments from_table {A} _ _.
Arguments where_clause {A} _ _.

(** [db.query(T)] *)
Definition db_query {A} (table : DB → list A) : Query A :=
  mkQuery table (λ _, true).

(** [q.filter(c)] *)
Definition Query_filter {A} (q : Query A) (c : A → bool) : Query A :=
  mkQuery (from_table q) (λ r, where_clause q r && c r).

(** [q.first()] *)
Definition Query_first {A} (q : Query A) : Sess (option A) :=
  λ s, (inr (head (List.filter (where_clause q) (from_table q (pending s)))), s).

(** [bool(q)]: the class defines neither [__bool__] nor [__len__], so a
    query object is true whatever rows it denotes. *)
Definition Query_bool {A} (q : Query A) : bool := true.

(** *** What the engine checks when the session is flushed

    The engine checks the rows a statement writes, not the whole table.  The
    flush is given here by the store before it and the store after it, so
    each check is stated on both: a row of the store after is looked at
    unless it stood, the same in the columns concerned, in the store
    before. *)

Definition occurrences (k : string) (l : list string) : nat :=
  count_occ String.string_dec l k.

(** A primary key or a unique column: no value is written that is already
    there.  [old] and [new] are the values of the column before and after. *)
Definition key_constraint (old new : list string) : Prop :=
  Forall (λ k, (occurrences k new ≤ 1)%nat
               ∨ (occurrences k new ≤ occurrences k old)%nat) new.

(** A foreign key: a reference (the key of the row, the key referred to) that
    is written must find its target, and no target that is referred to is
    removed.  A reference with no target passes only if it stood before with
    no target. *)
Definition foreign_key (old_refs new_refs : list (UUID * UUID))
    (old_keys new_keys : list UUID) : Prop :=
  Forall (λ r, r.2 ∈ new_keys ∨ (r ∈ old_refs ∧ r.2 ∉ old_keys)) new_refs.

(** An [Integer] column holds 32 bits: a value (with the key of its row) that
    is written must fit. *)
Definition fits_integer (n : Z) : Prop := -2147483648 ≤ n ≤ 2147483647.

Definition integer_column (old new : list (UUID * Z)) : Prop :=
  Forall (λ r, fits_integer r.2 ∨ r ∈ old) new.

(** [stock_quantity = Column(Integer)], [quantity = Column(Integer)] *)
Definition integers_fit (old new : DB) : Prop :=
  integer_column
    (map (λ p, (Product.id p, Product.stock_quantity p)) (products old))
    (map (λ p, (Product.id p, Product.stock_quantity p)) (products new))
  ∧ integer_column
      (map (λ t, (InventoryTransaction.id t, InventoryTransaction.quantity t))
         (inventory_transactions old))
      (map (λ t, (InventoryTransaction.id t, InventoryTransaction.quantity t))
         (inventory_transactions new)).

(** [id = Column(..., primary_key=True)] of the four classes and
    [email = Column(String, unique=True)] *)
Definition keys_unique (old new : DB) : Prop :=
  key_constraint (map User.id (users old)) (map User.id (users new))
  ∧ key_constraint (map User.email (users old)) (map User.email (users new))
  ∧ key_constraint (map Category.id (categories old)) (map Category.id (categories new))
  ∧ key_constraint (map Product.id (products old)) (map Product.id (products new))
  ∧ key_constraint (map InventoryTransaction.id (inventory_transactions old))
      (map InventoryTransaction.id (inventory_transactions new)).

(** [ForeignKey("categories.id")] and [ForeignKey("users.id")] of [Product],
    [ForeignKey("products.id")] of [InventoryTransaction] *)
Definition references_hold (old new : DB) : Prop :=
  foreign_key
    (map (λ p, (Product.id p, Product.category_id p)) (products old))
    (map (λ p, (Product.id p, Product.category_id p)) (products new))
    (map Category.id (categories old)) (map Category.id (categories new))
  ∧ foreign_key
      (map (λ p, (Product.id p, Product.user_id p)) (products old))
      (map (λ p, (Product.id p, Product.user_id p)) (products new))
      (map User.id (users old)) (map User.id (users new))
  ∧ foreign_key
      (map (λ t, (InventoryTransaction.id t, InventoryTransaction.product_id t))
         (inventory_transactions old))
      (map (λ t, (InventoryTransaction.id t, InventoryTransaction.product_id t))
         (inventory_transactions new))
      (map Product.id (products old)) (map Product.id (products new)).

(** The exception of a flush that the engine refuses. *)
Definition flush_error (old new : DB) : option exn :=
  if bool_decide (integers_fit old new) then
    if bool_decide (keys_unique old new) then
      if bool_decide (references_hold old new) then None
      else Some (IntegrityError "violates foreign key constraint")
    else Some (IntegrityError "duplicate key value violates unique constraint")
  else Some (DataError "integer out of range").

(** [db.commit()] *)
Definition db_commit : Sess unit :=
  λ s, match flush_error (committed s) (pending s) with
       | None => (inr tt, mkSession (pending s) (pending s))
       | Some e => (inl e, mkSession (committed s) (committed s))
       end.

Definition modify_pending (f : DB → DB) : Sess unit :=
  λ s, (inr tt, mkSession (committed s) (f (pending s))).

(** [get_db]: open a session on the database, run the request, close the
    session. *)
Definition run_request {A} (m : Sess A) (db : DB) : (exn + A) * DB :=
  let '(r, s) := m (mkSession db db) in (r, committed s).

(** ** The object-relational layer *)

(** The keyword constructor every mapped class inherits from the declarative
    base: it goes through the keywords in order and rejects the first one
    that is not an attribute of the class ([hasattr(cls, k)] is false).  For
    the keywords the code passes, the attributes that matter are the mapped
    columns. *)
Definition declarative_constructor (cls : string) (attributes kwargs : list string)
    : Sess unit :=
  match List.filter (λ k, negb (bool_decide (k ∈ attributes))) kwargs with
  | [] => ret tt
  | k :: _ =>
      raise (TypeError ("'" +:+ k +:+ "' is an invalid keyword argument for " +:+ cls))
  end.

(** [db.add(obj)] *)
Definition db_add {A} (with_table : (list A → list A) → DB → DB) (obj : A) : Sess unit :=
  modify_pending (with_table (λ rows, rows ++ [obj])).

(** [db.delete(obj)]: the rows with the primary key of [obj] go. *)
Definition db_delete {A} (with_table : (list A → list A) → DB → DB)
    (pk : A → UUID) (obj : A) : Sess unit :=
  modify_pending (with_table (List.filter (λ r, negb (String.eqb (pk r) (pk obj))))).

(** [db.refresh(obj)]: reload the object from its row. *)
Definition db_refresh {A} (table : DB → list A) (pk : A → UUID) (obj : A) : Sess A :=
  λ s, match head (List.filter (λ r, String.eqb (pk r) (pk obj)) (table (pending s))) with
       | Some r => (inr r, s)
       | None => (inl (InvalidRequestError "Could not refresh instance"), s)
       end.

(** The rows with key [k] written anew: their new versions go to the end. *)
Definition rewritten {A} (pk : A → UUID) (k : UUID) (assign : A → A)
    (rows : list A) : list A :=
  List.filter (λ r, negb (String.eqb (pk r) k)) rows
  ++ map assign (List.filter (λ r, String.eqb (pk r) k) rows).

(** [obj.attr = v] on a persistent object: the object changes, and so does
    its row as the session sees it. *)
Definition setattr {A} (with_table : (list A → list A) → DB → DB)
    (pk : A → UUID) (obj : A) (assign : A → A) : Sess A :=
  modify_pending (with_table (rewritten pk (pk obj) assign));;
  ret (assign obj).

(** ** Collaborators and process constants

    The password verifier ([pwd_context.verify], taken to answer on every
    stored hash), the JWT codec and the settings read from the environment
    are not part of the repository.  The [id] columns are declared with
    [default=uuid.uuid4()]: the call is made once, when the class body runs,
    and its value is the default of every later row. *)
Class Env := {
  SECRET_KEY : string;
  ALGORITHM : string;
  pwd_context_verify : string → string → bool;
  jwt_encode : gmap string Value → string → string → string;
  jwt_decode : datetime → string → string → list string → option (gmap string Value);
  Product_id_default : UUID;
  InventoryTransaction_id_default : UUID
}.

Section Services.
Context `{E : Env}.

(** ** [app/services/inventory_service.py] *)

Definition create_product (product : ProductCreate.t) (user_id : UUID)
    : Sess Product.t :=
  db_category <- Query_first
    (Query_filter (db_query categories)
       (λ c, String.eqb (Category.id c) (ProductCreate.category_id product)));;
  match db_category with
  | None => raise (ValueError "Category not found")
  | Some _ =>
      declarative_constructor "Product" Product.columns
        ["name"; "description"; "price"; "stock_quantity"; "image_url";
         "category_id"; "user_id"];;
      let new_product :=
        Product.mk Product_id_default
          (ProductCreate.name product) (ProductCreate.description product)
          (ProductCreate.price product) (ProductCreate.stock_quantity product)
          (ProductCreate.image_url product) (ProductCreate.category_id product)
          user_id in
      db_add with_products new_product;;
      db_commit;;
      new_product <- db_refresh products Product.id new_product;;
      ret new_product
  end.

Definition get_product (product_id : UUID) : Sess (option Product.t) :=
  Query_first
    (Query_filter (db_query products) (λ p, String.eqb (Product.id p) product_id)).

Definition update_product (product_id : UUID) (product : ProductCreate.t)
    : Sess Product.t :=
  db_product <- Query_first
    (Query_filter (db_query products) (λ p, String.eqb (Product.id p) product_id));;
  match db_product with
  | None => raise (ValueError "Product not found")
  | Some db_product =>
      db_product <- setattr with_products Product.id db_product
        (Product.set_name (ProductCreate.name product));;
      db_product <- setattr with_products Product.id db_product
        (Product.set_description (ProductCreate.description product));;
      db_product <- setattr with_products Product.id db_product
        (Product.set_price (ProductCreate.price product));;
      db_product <- setattr with_products Product.id db_product
        (Product.set_stock_quantity (ProductCreate.stock_quantity product));;
      db_product <- setattr with_products Product.id db_product
        (Product.set_image_url (ProductCreate.image_url product));;
      db_product <- setattr with_products Product.id db_product
        (Product.set_category_id (ProductCreate.category_id product));;
      db_commit;;
      db_product <- db_refresh products Product.id db_product;;
      ret db_product
  end.

Definition delete_product (product_id : UUID) : Sess Product.t :=
  db_product <- Query_first
    (Query_filter (db_query products) (λ p, String.eqb (Product.id p) product_id));;
  match db_product with
  | None => raise (ValueError "Product not found")
  | Some db_product =>
      db_delete with_products Product.id db_product;;
      db_commit;;
      ret db_product
  end.

(** The block "Updates the product's stock quantity" of
    [create_inventory_transaction]. *)
Definition update_stock_quantity (db_product : Product.t)
    (transaction : InventoryTransactionCreate.t) : Sess Product.t :=
  if String.eqb (InventoryTransactionCreate.type transaction) "entry" then
    setattr with_products Product.id db_product
      (Product.set_stock_quantity
         (Product.stock_quantity db_product
          + InventoryTransactionCreate.quantity transaction))
  else if String.eqb (InventoryTransactionCreate.type transaction) "exit" then
    if Product.stock_quantity db_product
       <? InventoryTransactionCreate.quantity transaction
    then raise (ValueError "Insufficient stock quantity")
    else
      setattr with_products Product.id db_product
        (Product.set_stock_quantity
           (Product.stock_quantity db_product
            - InventoryTransactionCreate.quantity transaction))
  else ret db_product.

Definition create_inventory_transaction (product_id : UUID)
    (transaction : InventoryTransactionCreate.t) (user_id : UUID)
    : Sess InventoryTransaction.t :=
  db_product <- Query_first
    (Query_filter (db_query products) (λ p, String.eqb (Product.id p) product_id));;
  match db_product with
  | None => raise (ValueError "Product not found")
  | Some db_product =>
      declarative_constructor "InventoryTransaction" InventoryTransaction.columns
        ["product_id"; "type"; "quantity"; "description"; "user_id"];;
      let new_transaction :=
        InventoryTransaction.mk InventoryTransaction_id_default
          product_id
          (InventoryTransactionCreate.type transaction)
          (InventoryTransactionCreate.quantity transaction)
          (InventoryTransactionCreate.description transaction) in
      db_add with_inventory_transactions new_transaction;;
      db_commit;;
      new_transaction <- db_refresh inventory_transactions
        InventoryTransaction.id new_transaction;;
      db_product <- update_stock_quantity db_product transaction;;
      db_commit;;
      db_product <- db_refresh products Product.id db_product;;
      ret new_transaction
  end.

(** No terminal method is called: the query object itself is returned. *)
Definition get_inventory_transaction (product_id transaction_id : UUID)
    : Sess (Query InventoryTransaction.t) :=
  ret (Query_filter (db_query inventory_transactions)
         (λ t, String.eqb (InventoryTransaction.product_id t) product_id
               && String.eqb (InventoryTransaction.id t) transaction_id)).

Definition get_category (category_id : UUID) : Sess (option Category.t) :=
  Query_first
    (Query_filter (db_query categories) (λ c, String.eqb (Category.id c) category_id)).

Definition update_category (category_id : UUID) (category : CategoryCreate.t)
    : Sess Category.t :=
  db_category <- Query_first
    (Query_filter (db_query categories) (λ c, String.eqb (Category.id c) category_id));;
  match db_category with
  | None => raise (ValueError "Category not found")
  | Some db_category =>
      db_category <- setattr with_categories Category.id db_category
        (Category.set_name (CategoryCreate.name category));;
      db_category <- setattr with_categories Category.id db_category
        (Category.set_description (CategoryCreate.description category));;
      db_commit;;
      db_category <- db_refresh categories Category.id db_category;;
      ret db_category
  end.

Definition delete_category (category_id : UUID) : Sess Category.t :=
  db_category <- Query_first
    (Query_filter (db_query categories) (λ c, String.eqb (Category.id c) category_id));;
  match db_category with
  | None => raise (ValueError "Category not found")
  | Some db_category =>
      db_delete with_categories Category.id db_category;;
      db_commit;;
      ret db_category
  end.

End Services.

(** ** Requests *)

(** What an endpoint sees of the HTTP request besides its parameters: the
    credential of an [Authorization: Bearer ...] header, if there is one. *)
Record Request := mkRequest {
  bearer : option string
}.

Section Api.
Context `{E : Env}.

(** ** [app/utils/auth.py] *)

Definition verify_password (plain_password hashed_password : string) : bool :=
  pwd_context_verify plain_password hashed_password.

Definition authenticate_user (email password : string) : Sess (option User.t) :=
  user <- Query_first
    (Query_filter (db_query users) (λ u, String.eqb (User.email u) email));;
  match user with
  | None => ret None
  | Some u =>
      if negb (verify_password password (User.password u)) then ret None
      else ret (Some u)
  end.

(** The payload handed to the encoder by [create_access_token]. *)
Definition to_encode (now : datetime) (data : gmap string Value)
    (expires_delta : option timedelta) : gmap string Value :=
  let to_encode := data in
  let expire :=
    match expires_delta with
    | Some d =>
        if timedelta_bool d then now + d else now + timedelta_minutes 15
    | None => now + timedelta_minutes 15
    end in
  <["exp" := VDatetime expire]> to_encode.

Definition create_access_token (now : datetime) (data : gmap string Value)
    (expires_delta : option timedelta) : string :=
  jwt_encode (to_encode now data expires_delta) SECRET_KEY ALGORITHM.

Definition credentials_exception : exn :=
  HTTPException 401 "Unable to validate credentials" [("WWW-Authenticate", "Bearer")].

(** [OAuth2PasswordBearer(tokenUrl="auth/token")] as a dependency. *)
Definition oauth2_scheme (request : Request) : Sess string :=
  match bearer request with
  | Some token => ret token
  | None =>
      raise (HTTPException 401 "Not authenticated" [("WWW-Authenticate", "Bearer")])
  end.

Definition get_current_user (now : datetime) (token : string) : Sess User.t :=
  match jwt_decode now token SECRET_KEY [ALGORITHM] with
  | None => raise credentials_exception
  | Some payload =>
      match payload !! "sub" with
      | None => raise credentials_exception
      | Some email =>
          user <- Query_first
            (Query_filter (db_query users)
               (λ u, bool_decide (VStr (User.email u) = email)));;
          match user with
          | None => raise credentials_exception
          | Some user => ret user
          end
      end
  end.

(** [Depends(get_current_user)] *)
Definition Depends_get_current_user (now : datetime) (request : Request) : Sess User.t :=
  token <- oauth2_scheme request;;
  get_current_user now token.

(** ** [app/api/v1/auth.py] *)

Definition login_for_access_token (now : datetime) (username password : string)
    : Sess (gmap string string) :=
  user <- authenticate_user username password;;
  match user with
  | None =>
      raise (HTTPException 401 "Incorrect email or password"
               [("WWW-Authenticate", "Bearer")])
  | Some user =>
      let access_token_expires := timedelta_minutes 30 in
      let access_token :=
        create_access_token now {[ "sub" := VStr (User.email user) ]}
          (Some access_token_expires) in
      ret (<["token_type" := "bearer"]> {[ "access_token" := access_token ]})
  end.

(** ** [app/api/v1/inventory.py] *)

Definition create_new_product (now : datetime) (request : Request)
    (product : ProductCreate.t) : Sess Product.t :=
  current_user <- Depends_get_current_user now request;;
  try_except_ValueError
    (new_product <- create_product product (User.id current_user);;
     ret new_product)
    (λ e, raise (HTTPException 400 e [])).

Definition read_product (product_id : UUID) : Sess Product.t :=
  product <- get_product product_id;;
  match product with
  | None => raise (HTTPException 404 "Product not found" [])
  | Some product => ret product
  end.

Definition update_existing_product (now : datetime) (request : Request)
    (product_id : UUID) (product : ProductCreate.t) : Sess Product.t :=
  current_user <- Depends_get_current_user now request;;
  try_except_ValueError
    (updated_product <- update_product product_id product;;
     ret updated_product)
    (λ e, raise (HTTPException 404 e [])).

Definition delete_existing_product (now : datetime) (request : Request)
    (product_id : UUID) : Sess Product.t :=
  current_user <- Depends_get_current_user now request;;
  try_except_ValueError
    (deleted_product <- delete_product product_id;;
     ret deleted_product)
    (λ e, raise (HTTPException 404 e [])).

Definition create_transaction (now : datetime) (request : Request)
    (product_id : UUID) (transaction : InventoryTransactionCreate.t)
    : Sess InventoryTransaction.t :=
  current_user <- Depends_get_current_user now request;;
  try_except_ValueError
    (new_transaction <-
       create_inventory_transaction product_id transaction (User.id current_user);;
     ret new_transaction)
    (λ e, raise (HTTPException 400 e [])).

Definition read_transaction (product_id transaction_id : UUID)
    : Sess (Query InventoryTransaction.t) :=
  transaction <- get_inventory_transaction product_id transaction_id;;
  if negb (Query_bool transaction) then
    raise (HTTPException 404 "Stock movement not found" [])
  else ret transaction.

Definition update_existing_category (category_id : UUID) (category : CategoryCreate.t)
    : Sess Category.t :=
  try_except_ValueError
    (updated_category <- update_category category_id category;;
     ret updated_category)
    (λ e, raise (HTTPException 404 e [])).

Definition delete_existing_category (category_id : UUID) : Sess Category.t :=
  try_except_ValueError
    (deleted_category <- delete_category category_id;;
     ret deleted_category)
    (λ e, raise (HTTPException 404 e [])).

End Api.

(** ** Predicates used in the statements *)

(** Every product of the store has a non-negative stock counter. *)
Definition stock_nonneg (d : DB) : Prop :=
  Forall (λ p, 0 ≤ Product.stock_quantity p) (products d).

(** The product that [product_id] denotes in the store, as the services look
    it up. *)
Definition find_product (d : DB) (product_id : UUID) : option Product.t :=
  head (List.filter (λ p, String.eqb (Product.id p) product_id) (products d)).

(** The category that [category_id] denotes in the store. *)
Definition find_category (d : DB) (category_id : UUID) : option Category.t :=
  head (List.filter (λ c, String.eqb (Category.id c) category_id) (categories d)).

(** The movements of the ledger that refer to a product. *)
Definition movements_of (d : DB) (product_id : UUID) : list InventoryTransaction.t :=
  List.filter (λ t, String.eqb (InventoryTransaction.product_id t) product_id)
    (inventory_transactions d).

(** The products that refer to a category. *)
Definition products_of (d : DB) (category_id : UUID) : list Product.t :=
  List.filter (λ p, String.eqb (Product.category_id p) category_id) (products d).

(** Every product of the store refers to a category of the store. *)
Definition products_have_categories (d : DB) : Prop :=
  ∀ p, In p (products d) → find_category d (Product.category_id p) ≠ None.

(** Every stock counter of the store fits the integer column. *)
Definition stocks_fit (d : DB) : Prop :=
  ∀ p, In p (products d) → fits_integer (Product.stock_quantity p).

(** The one failure of the login endpoint. *)
Definition incorrect_email_or_password : exn :=
  HTTPException 401 "Incorrect email or password" [("WWW-Authenticate", "Bearer")].

(** The message of the exception that the constructor of
    [InventoryTransaction] raises on the keyword [user_id]. *)
Definition invalid_user_id : string :=
  "'user_id' is an invalid keyword argument for InventoryTransaction".

(** ** A concrete deployment and database for examples *)

Module Demo.

(** Stand-ins for the collaborators: a hasher that prefixes the salt, and a
    token codec whose token is the subject itself. *)
Definition hash (salt password : string) : string := salt +:+ "$" +:+ password.

Definition verify (password hashed : string) : bool :=
  let tail := "$" +:+ password in
  String.eqb
    (String.substring (String.length hashed - String.length tail)
       (String.length tail) hashed)
    tail.

Definition encode (payload : gmap string Value) (key algorithm : string) : string :=
  match payload !! "sub" with
  | Some (VStr s) => s
  | _ => ""
  end.

Definition decode (now : datetime) (token key : string) (algorithms : list string)
    : option (gmap string Value) :=
  if String.eqb token "" then None else Some {[ "sub" := VStr token ]}.

Definition env : Env := {|
  SECRET_KEY := "secret";
  ALGORITHM := "HS256";
  pwd_context_verify := verify;
  jwt_encode := encode;
  jwt_decode := decode;
  Product_id_default := "p-default";
  InventoryTransaction_id_default := "t-default"
|}.

Definition alice : User.t := User.mk "u1" "Alice" "a@x.com" (hash "salt" "pw1").
Definition tools : Category.t := Category.mk "c1" "Tools" None.
Definition hammer : Product.t :=
  Product.mk "p1" "Hammer" None 10%float 5 None "c1" "u1".
Definition movement : InventoryTransaction.t :=
  InventoryTransaction.mk "t1" "p1" "entry" 5 None.

(** One user, one category, one product with five in stock, no movement. *)
Definition db : DB := mkDB [alice] [tools] [hammer] [].

(** The same with one movement in the ledger. *)
Definition db_with_movement : DB := mkDB [alice] [tools] [hammer] [movement].

Definition entry (q : Z) : InventoryTransactionCreate.t :=
  InventoryTransactionCreate.mk "p1" "entry" q None.
Definition exit (q : Z) : InventoryTransactionCreate.t :=
  InventoryTransactionCreate.mk "p1" "exit" q None.
Definition adjustment (q : Z) : InventoryTransactionCreate.t :=
  InventoryTransactionCreate.mk "p1" "adjustment" q None.

End Demo.

(** * The rest of the services and endpoints *)

(** ** Further collaborators and process constants

    [pwd_context.hash] draws a salt; the salt is an explicit argument here.
    [statement_error] is the exception with which the database engine
    refuses a statement, whatever its class.  The two identifiers are the
    values of [uuid.uuid4()] in the class bodies of [User] and [Category]. *)
Class Creation := {
  pwd_context_hash : string → string → string;
  statement_error : string → exn;
  User_id_default : UUID;
  Category_id_default : UUID
}.

(** ** Paginated queries *)

(** A query with an offset and a limit put on it. *)
Record Select (A : Type) := mkSelect {
  select_from : Query A;
  select_offset : option Z;
  select_limit : option Z
}.
Arguments mkSelect {A} _ _ _.
Arguments select_from {A} _.
Arguments select_offset {A} _.
Arguments select_limit {A} _.

(** [q.offset(n)] *)
Definition Query_offset {A} (q : Query A) (n : Z) : Select A :=
  mkSelect q (Some n) None.

(** [q.limit(n)] on a query that has its offset. *)
Definition Select_limit {A} (q : Select A) (n : Z) : Select A :=
  mkSelect (select_from q) (select_offset q) (Some n).

(** The rows from position [offset] on, [limit] of them at most. *)
Definition rows_window {A} (offset limit : option Z) (rows : list A) : list A :=
  let rows := match offset with Some n => drop (Z.to_nat n) rows | None => rows end in
  match limit with Some n => take (Z.to_nat n) rows | None => rows end.

Definition negative (n : option Z) : bool :=
  match n with Some n => n <? 0 | None => false end.

Section MoreServices.
Context `{C : Creation}.

(** [q.all()]: the engine refuses a negative offset or limit. *)
Definition Select_all {A} (q : Select A) : Sess (list A) :=
  λ s,
    if negative (select_offset q) || negative (select_limit q) then
      (inl (statement_error "OFFSET and LIMIT must not be negative"), s)
    else
      (inr (rows_window (select_offset q) (select_limit q)
              (List.filter (where_clause (select_from q))
                 (from_table (select_from q) (pending s)))), s).

(** ** [app/services/inventory_service.py], continued *)

Definition get_products (skip limit : Z) : Sess (list Product.t) :=
  Select_all (Select_limit (Query_offset (db_query products) skip) limit).

Definition get_inventory_transactions (product_id : UUID) (skip limit : Z)
    : Sess (list InventoryTransaction.t) :=
  Select_all
    (Select_limit
       (Query_offset
          (Query_filter (db_query inventory_transactions)
             (λ t, String.eqb (InventoryTransaction.product_id t) product_id))
          skip)
       limit).

Definition create_category (category : CategoryCreate.t) : Sess Category.t :=
  db_category <- Query_first
    (Query_filter (db_query categories)
       (λ c, String.eqb (Category.name c) (CategoryCreate.name category)));;
  match db_category with
  | Some _ => raise (ValueError "Category already exists")
  | None =>
      declarative_constructor "Category" Category.columns ["name"; "description"];;
      let new_category :=
        Category.mk Category_id_default
          (CategoryCreate.name category) (CategoryCreate.description category) in
      db_add with_categories new_category;;
      db_commit;;
      new_category <- db_refresh categories Category.id new_category;;
      ret new_category
  end.

Definition get_categories (skip limit : Z) : Sess (list Category.t) :=
  Select_all (Select_limit (Query_offset (db_query categories) skip) limit).

(** ** [app/utils/auth.py], continued *)

Definition get_password_hash (salt password : string) : string :=
  pwd_context_hash salt password.

End MoreServices.

(** ** Request schema of registration ([app/schemas/item_schemas.py]) *)

Module UserCreate.
Record t := mk { name : string; email : string; password : string }.
End UserCreate.

Section MoreApi.
Context `{E : Env} `{C : Creation}.

(** ** [app/api/v1/auth.py], continued *)

Definition register_user (salt : string) (user : UserCreate.t) : Sess User.t :=
  db_user <- Query_first
    (Query_filter (db_query users)
       (λ u, String.eqb (User.email u) (UserCreate.email user)));;
  match db_user with
  | Some _ => raise (HTTPException 400 "Email already registered" [])
  | None =>
      let hashed_password := get_password_hash salt (UserCreate.password user) in
      declarative_constructor "User" User.columns ["name"; "email"; "password"];;
      let new_user :=
        User.mk User_id_default (UserCreate.name user) (UserCreate.email user)
          hashed_password in
      db_add with_users new_user;;
      db_commit;;
      new_user <- db_refresh users User.id new_user;;
      ret new_user
  end.

Definition read_users_me (now : datetime) (request : Request) : Sess User.t :=
  current_user <- Depends_get_current_user now request;;
  ret current_user.

(** ** [app/api/v1/inventory.py], continued *)

Definition list_products (skip limit : Z) : Sess (list Product.t) :=
  products <- get_products skip limit;;
  ret products.

Definition list_transactions (product_id : UUID) (skip limit : Z)
    : Sess (list InventoryTransaction.t) :=
  transactions <- get_inventory_transactions product_id skip limit;;
  ret transactions.

Definition create_new_category (now : datetime) (request : Request)
    (category : CategoryCreate.t) : Sess Category.t :=
  current_user <- Depends_get_current_user now request;;
  try_except_ValueError
    (new_category <- create_category category;;
     ret new_category)
    (λ e, raise (HTTPException 400 e [])).

Definition list_categories (skip limit : Z) : Sess (list Category.t) :=
  categories <- get_categories skip limit;;
  ret categories.

Definition read_category (category_id : UUID) : Sess Category.t :=
  category <- get_category category_id;;
  match category with
  | None => raise (HTTPException 404 "Category not found" [])
  | Some category => ret category
  end.

End MoreApi.

(** ** Further predicates used in the statements *)

(** The user stored under [email], as the code looks it up. *)
Definition find_user (d : DB) (email : string) : option User.t :=
  head (List.filter (λ u, String.eqb (User.email u) email) (users d)).

(** The category stored under [name], as [create_category] looks it up. *)
Definition find_category_named (d : DB) (name : string) : option Category.t :=
  head (List.filter (λ c, String.eqb (Category.name c) name) (categories d)).

(** ** A concrete setting for the further collaborators *)

Module Fixture.

Definition creation : Creation := {|
  pwd_context_hash := Demo.hash;
  statement_error := InvalidRequestError;
  User_id_default := "u-default";
  Category_id_default := "c-default"
|}.

Definition bob : UserCreate.t := UserCreate.mk "Bob" "b@x.com" "pw2".
Definition garden : CategoryCreate.t := CategoryCreate.mk "Garden" None.
Definition mallet : ProductCreate.t :=
  ProductCreate.mk "Mallet" None 12%float 7 None "c1" "u1".
Definition saw : Product.t := Product.mk "p2" "Saw" None 20%float 3 None "c1" "u1".

(** Two products, and a ledger with two movements of the first product and
    one of the second. *)
Definition db2 : DB :=
  mkDB [Demo.alice] [Demo.tools] [Demo.hammer; saw]
    [InventoryTransaction.mk "t1" "p1" "entry" 5 None;
     InventoryTransaction.mk "t2" "p2" "entry" 3 None;
     InventoryTransaction.mk "t3" "p1" "exit" 1 None].

(** A second category, which no product refers to, and a third product,
    which has no movement. *)
Definition spare : Category.t := Category.mk "c2" "Spare parts" None.
Definition chisel : Product.t :=
  Product.mk "p3" "Chisel" None 8%float 4 None "c1" "u1".

Definition db3 : DB :=
  mkDB [Demo.alice] [Demo.tools; spare] [Demo.hammer; saw; chisel]
    [InventoryTransaction.mk "t1" "p1" "entry" 5 None;
     InventoryTransaction.mk "t2" "p2" "entry" 3 None].

End Fixture.

(** The row that [update_product] makes of a row: the six fields of the
    payload, the identifier and the owner of the row. *)
Definition updated (product : ProductCreate.t) (r : Product.t) : Product.t :=
  Product.mk (Product.id r)
    (ProductCreate.name product) (ProductCreate.description product)
    (ProductCreate.price product) (ProductCreate.stock_quantity product)
    (ProductCreate.image_url product) (ProductCreate.category_id product)
    (Product.user_id r).

(** The row that [create_product] adds for a payload and an owner. *)
Definition created `{E : Env} (product : ProductCreate.t) (user_id : UUID) : Product.t :=
  Product.mk Product_id_default
    (ProductCreate.name product) (ProductCreate.description product)
    (ProductCreate.price product) (ProductCreate.stock_quantity product)
    (ProductCreate.image_url product) (ProductCreate.category_id product)
    user_id.

(** The row that [update_category] makes of a row. *)
Definition renamed (category : CategoryCreate.t) (r : Category.t) : Category.t :=
  Category.mk (Category.id r)
    (CategoryCreate.name category) (CategoryCreate.description category).

(** The row that [create_category] adds. *)
Definition created_category `{C : Creation} (category : CategoryCreate.t) : Category.t :=
  Category.mk Category_id_default
    (CategoryCreate.name category) (CategoryCreate.description category).

(** The row that [register_user] adds: the password is stored as its hash. *)
Definition registered `{C : Creation} (salt : string) (user : UserCreate.t) : User.t :=
  User.mk User_id_default (UserCreate.name user) (UserCreate.email user)
    (get_password_hash salt (UserCreate.password user)).

(** ** [app/utils/error_handlers.py] *)

(** Values of a JSON body. *)
Inductive Json :=
| JStr (s : string)
| JInt (n : Z).

Record JSONResponse := mkJSONResponse {
  response_status_code : Z;
  response_content : gmap string Json
}.

Definition ERROR_MESSAGES : gmap Z string :=
  <[400 := "Bad Request"]>
  (<[401 := "Unauthorized"]>
  (<[403 := "Forbidden"]>
  (<[404 := "Not Found"]>
  (<[405 := "Method Not Allowed"]>
  (<[408 := "Request Timeout"]>
  (<[409 := "Conflict"]>
  (<[429 := "Too Many Requests"]>
  (<[500 := "Internal Server Error"]>
  (<[502 := "Bad Gateway"]>
  (<[503 := "Service Unavailable"]>
  (<[504 := "Gateway Timeout"]> ∅))))))))))).

Definition error_response (status_code : Z) (message : string) : JSONResponse :=
  mkJSONResponse status_code
    (<["error" := JStr (default "Unknown Error" (ERROR_MESSAGES !! status_code))]>
     (<["message" := JStr message]>
      (<["status_code" := JInt status_code]> ∅))).

(** * Properties *)

(** ** The session monad and the object-relational layer *)

Lemma Query_first_filter {A} (table : DB → list A) (c : A → bool) (s : Session) :
  Query_first (Query_filter (db_query table) c) s
  = (inr (head (List.filter c (table (pending s)))), s).
Proof.
  reflexivity.
Qed.

Lemma head_filter_pk {A} (pk : A → UUID) (k : UUID) (l : list A) (p : A) :
  head (List.filter (λ r, String.eqb (pk r) k) l) = Some p → pk p = k.
Proof.
  induction l as [|r l IH]; simpl; [discriminate|].
  destruct (String.eqb (pk r) k) eqn:E; simpl; [|exact IH].
  intros [= <-]. now apply String.eqb_eq.
Qed.

Lemma head_filter_In {A} (c : A → bool) (l : list A) (p : A) :
  head (List.filter c l) = Some p → In p l ∧ c p = true.
Proof.
  intros Hh. apply List.filter_In.
  destruct (List.filter c l) as [|x xs] eqn:E; simpl in Hh; [discriminate|].
  injection Hh as ->. left. reflexivity.
Qed.

Lemma filter_all {A} (c : A → bool) (l : list A) :
  (∀ x, In x l → c x = true) → List.filter c l = l.
Proof.
  induction l as [|r l IH]; simpl; intros Hl; [reflexivity|].
  rewrite (Hl r) by (left; reflexivity). f_equal. apply IH. auto.
Qed.

Lemma filter_none {A} (c : A → bool) (l : list A) :
  (∀ x, In x l → c x = false) → List.filter c l = [].
Proof.
  induction l as [|r l IH]; simpl; intros Hl; [reflexivity|].
  rewrite (Hl r) by (left; reflexivity). apply IH. auto.
Qed.

Lemma filter_none_inv {A} (c : A → bool) (l : list A) (x : A) :
  List.filter c l = [] → In x l → c x = false.
Proof.
  intros Hl Hx. destruct (c x) eqn:Hc; [|reflexivity].
  assert (In x (List.filter c l)) as Hin by (apply List.filter_In; auto).
  rewrite Hl in Hin. destruct Hin.
Qed.

(** The rows with key [k] written anew: the first of them, [p], is then
    [assign p], when the assignment leaves the primary key alone. *)
Lemma head_filter_rewritten {A} (pk : A → UUID) (k : UUID) (assign : A → A)
    (l : list A) (p : A) :
  (∀ r, pk (assign r) = pk r) →
  head (List.filter (λ r, String.eqb (pk r) k) l) = Some p →
  head (List.filter (λ r, String.eqb (pk r) k) (rewritten pk k assign l))
  = Some (assign p).
Proof.
  intros Hpk Hp. unfold rewritten. rewrite List.filter_app.
  rewrite (filter_none (λ r, String.eqb (pk r) k)
             (List.filter (λ r, negb (String.eqb (pk r) k)) l)).
  - rewrite (filter_all (λ r, String.eqb (pk r) k)).
    + destruct (List.filter _ l); [discriminate|]. injection Hp as ->. reflexivity.
    + intros x Hx. apply List.in_map_iff in Hx as (r & <- & Hr).
      apply List.filter_In in Hr as [_ Hr]. rewrite Hpk. exact Hr.
  - intros x Hx. apply List.filter_In in Hx as [_ Hx].
    destruct (String.eqb (pk x) k); [discriminate | reflexivity].
Qed.

(** Rows with another key are not touched. *)
Lemma head_filter_rewritten_other {A} (pk : A → UUID) (k k' : UUID) (assign : A → A)
    (l : list A) :
  (∀ r, pk (assign r) = pk r) → k ≠ k' →
  head (List.filter (λ r, String.eqb (pk r) k') (rewritten pk k assign l))
  = head (List.filter (λ r, String.eqb (pk r) k') l).
Proof.
  intros Hpk Hne. unfold rewritten. rewrite List.filter_app.
  rewrite (filter_none (λ r, String.eqb (pk r) k') (map assign _)).
  - rewrite List.app_nil_r. f_equal.
    induction l as [|r l IH]; simpl; [reflexivity|].
    destruct (String.eqb (pk r) k) eqn:Hk; simpl.
    + apply String.eqb_eq in Hk.
      assert (String.eqb (pk r) k' = false) as ->
        by (apply String.eqb_neq; congruence).
      exact IH.
    + destruct (String.eqb (pk r) k'); [f_equal|]; exact IH.
  - intros x Hx. apply List.in_map_iff in Hx as (r & <- & Hr).
    apply List.filter_In in Hr as [_ Hr]. apply String.eqb_eq in Hr.
    rewrite Hpk. apply String.eqb_neq. congruence.
Qed.

(** Two assignments in a row are one. *)
Lemma rewritten_compose {A} (pk : A → UUID) (k : UUID) (f g : A → A) (l : list A) :
  (∀ r, pk (f r) = pk r) →
  rewritten pk k g (rewritten pk k f l) = rewritten pk k (λ r, g (f r)) l.
Proof.
  intros Hpk. unfold rewritten. rewrite !List.filter_app.
  assert (∀ x, In x (map f (List.filter (λ r, String.eqb (pk r) k) l)) →
               String.eqb (pk x) k = true) as Hin.
  { intros x Hx. apply List.in_map_iff in Hx as (r & <- & Hr).
    apply List.filter_In in Hr as [_ Hr]. rewrite Hpk. exact Hr. }
  assert (∀ x, In x (List.filter (λ r, negb (String.eqb (pk r) k)) l) →
               String.eqb (pk x) k = false) as Hout.
  { intros x Hx. apply List.filter_In in Hx as [_ Hx].
    destruct (String.eqb (pk x) k); [discriminate | reflexivity]. }
  rewrite (filter_all (λ r, negb (String.eqb (pk r) k))
             (List.filter (λ r, negb (String.eqb (pk r) k)) l))
    by (intros x Hx; rewrite (Hout x Hx); reflexivity).
  rewrite (filter_none (λ r, negb (String.eqb (pk r) k)) (map f _))
    by (intros x Hx; rewrite (Hin x Hx); reflexivity).
  rewrite (filter_none (λ r, String.eqb (pk r) k)
             (List.filter (λ r, negb (String.eqb (pk r) k)) l)) by exact Hout.
  rewrite (filter_all (λ r, String.eqb (pk r) k) (map f _)) by exact Hin.
  rewrite List.app_nil_r. cbn [app]. rewrite List.map_map. reflexivity.
Qed.

Lemma rewritten_ext {A} (pk : A → UUID) (k : UUID) (f g : A → A) (l : list A) :
  (∀ r, f r = g r) → rewritten pk k f l = rewritten pk k g l.
Proof.
  intros Hfg. unfold rewritten. f_equal. apply List.map_ext. exact Hfg.
Qed.

(** The rows after an assignment are the rows before it, each with key [k]
    replaced by its new version, in some order. *)
Lemma rewritten_Permutation {A} (pk : A → UUID) (k : UUID) (assign : A → A)
    (l : list A) :
  rewritten pk k assign l
  ≡ₚ map (λ r, if String.eqb (pk r) k then assign r else r) l.
Proof.
  unfold rewritten. induction l as [|r l IH]; simpl; [reflexivity|].
  destruct (String.eqb (pk r) k); simpl.
  - rewrite <- IH. symmetry. apply Permutation_middle.
  - rewrite IH. reflexivity.
Qed.

Lemma rewritten_In {A} (pk : A → UUID) (k : UUID) (assign : A → A)
    (l : list A) (x : A) :
  In x (rewritten pk k assign l)
  ↔ (In x l ∧ pk x ≠ k) ∨ (∃ r, In r l ∧ pk r = k ∧ x = assign r).
Proof.
  unfold rewritten. rewrite List.in_app_iff, List.filter_In, List.in_map_iff.
  split.
  - intros [[Hin Hk]|(r & <- & Hr)].
    + left. split; [exact Hin|]. apply String.eqb_neq.
      destruct (String.eqb (pk x) k); [discriminate | reflexivity].
    + apply List.filter_In in Hr as [Hr Hk]. apply String.eqb_eq in Hk. eauto.
  - intros [[Hin Hk]|(r & Hr & Hk & ->)].
    + left. split; [exact Hin|]. apply String.eqb_neq in Hk. rewrite Hk. reflexivity.
    + right. exists r. split; [reflexivity|]. apply List.filter_In.
      split; [exact Hr | now apply String.eqb_eq].
Qed.

Lemma declarative_constructor_accepts (cls : string) (attributes kwargs : list string)
    (s : Session) :
  Forall (λ k, k ∈ attributes) kwargs →
  declarative_constructor cls attributes kwargs s = (inr tt, s).
Proof.
  intros Hall. unfold declarative_constructor.
  replace (List.filter _ kwargs) with (@nil string); [reflexivity|].
  symmetry. induction Hall as [|k ks Hk _ IH]; simpl; [reflexivity|].
  rewrite bool_decide_eq_true_2 by exact Hk. simpl. exact IH.
Qed.

Lemma head_filter_deleted {A} (pk : A → UUID) (k : UUID) (l : list A) :
  head (List.filter (λ r, String.eqb (pk r) k)
          (List.filter (λ r, negb (String.eqb (pk r) k)) l)) = None.
Proof.
  induction l as [|r l IH]; simpl; [reflexivity|].
  destruct (String.eqb (pk r) k) eqn:Hk; simpl; [exact IH|].
  rewrite Hk. exact IH.
Qed.

Lemma head_filter_app_new {A} (c : A → bool) (l : list A) (x : A) :
  head (List.filter c l) = None → c x = true →
  head (List.filter c (l ++ [x])) = Some x.
Proof.
  intros Hl Hx. rewrite List.filter_app. simpl. rewrite Hx.
  destruct (List.filter c l); [reflexivity | discriminate].
Qed.

Lemma head_filter_delete_other {A} (pk : A → UUID) (k k' : UUID) (l : list A) :
  k ≠ k' →
  head (List.filter (λ r, String.eqb (pk r) k')
          (List.filter (λ r, negb (String.eqb (pk r) k)) l))
  = head (List.filter (λ r, String.eqb (pk r) k') l).
Proof.
  intros Hne. induction l as [|r l IH]; simpl; [reflexivity|].
  destruct (String.eqb (pk r) k) eqn:Hk; simpl.
  - apply String.eqb_eq in Hk.
    assert (String.eqb (pk r) k' = false) as ->
      by (apply String.eqb_neq; congruence).
    exact IH.
  - destruct (String.eqb (pk r) k'); simpl; [reflexivity | exact IH].
Qed.

Lemma bind_raise {A B} (m : Sess A) (k : A → Sess B) (s s' : Session) (e : exn) :
  m s = (inl e, s') → bind m k s = (inl e, s').
Proof. intros Hm. unfold bind. rewrite Hm. reflexivity. Qed.

Lemma bind_ret {A B} (m : Sess A) (k : A → Sess B) (s s' : Session) (a : A) :
  m s = (inr a, s') → bind m k s = k a s'.
Proof. intros Hm. unfold bind. rewrite Hm. reflexivity. Qed.

Lemma try_except_ValueError_ret {A} (m : Sess A) (h : string → Sess A)
    (s s' : Session) (a : A) :
  m s = (inr a, s') → try_except_ValueError (x <- m;; ret x) h s = (inr a, s').
Proof. intros Hm. unfold try_except_ValueError, bind. rewrite Hm. reflexivity. Qed.

(** An exception of the engine passes through the handler of the
    endpoints. *)
Lemma try_except_ValueError_IntegrityError {A} (m : Sess A) (h : string → Sess A)
    (s s' : Session) (msg : string) :
  m s = (inl (IntegrityError msg), s') →
  try_except_ValueError (x <- m;; ret x) h s = (inl (IntegrityError msg), s').
Proof. intros Hm. unfold try_except_ValueError, bind. rewrite Hm. reflexivity. Qed.

Lemma try_except_ValueError_DataError {A} (m : Sess A) (h : string → Sess A)
    (s s' : Session) (msg : string) :
  m s = (inl (DataError msg), s') →
  try_except_ValueError (x <- m;; ret x) h s = (inl (DataError msg), s').
Proof. intros Hm. unfold try_except_ValueError, bind. rewrite Hm. reflexivity. Qed.

(** ** The checks of the flush *)

(** The flush raises an integrity error or a data error, nothing else. *)
Lemma flush_error_Some (old new : DB) (e : exn) :
  flush_error old new = Some e →
  (∃ msg, e = IntegrityError msg) ∨ (∃ msg, e = DataError msg).
Proof.
  unfold flush_error. repeat case_bool_decide; intros [= <-]; eauto.
Qed.

Lemma flush_error_accepts (old new : DB) :
  integers_fit old new → keys_unique old new → references_hold old new →
  flush_error old new = None.
Proof.
  intros Hi Hk Hr. unfold flush_error.
  rewrite !bool_decide_eq_true_2 by assumption. reflexivity.
Qed.

Lemma flush_error_foreign_key (old new : DB) :
  integers_fit old new → keys_unique old new → ¬ references_hold old new →
  flush_error old new = Some (IntegrityError "violates foreign key constraint").
Proof.
  intros Hi Hk Hr. unfold flush_error.
  rewrite !bool_decide_eq_true_2 by assumption.
  rewrite bool_decide_eq_false_2 by assumption. reflexivity.
Qed.

Lemma flush_error_out_of_range (old new : DB) :
  ¬ integers_fit old new →
  flush_error old new = Some (DataError "integer out of range").
Proof.
  intros Hi. unfold flush_error.
  rewrite bool_decide_eq_false_2 by assumption. reflexivity.
Qed.

Lemma flush_error_None (old new : DB) :
  flush_error old new = None →
  integers_fit old new ∧ keys_unique old new ∧ references_hold old new.
Proof.
  unfold flush_error. repeat case_bool_decide; try discriminate. auto.
Qed.

(** *** Keys *)

Lemma key_constraint_le (old new : list string) :
  (∀ k, (occurrences k new ≤ occurrences k old)%nat) → key_constraint old new.
Proof. intros Hle. apply Forall_forall. intros k _. right. apply Hle. Qed.

Lemma key_constraint_same (l : list string) : key_constraint l l.
Proof. apply key_constraint_le. reflexivity. Qed.

Lemma key_constraint_Permutation (old new : list string) :
  new ≡ₚ old → key_constraint old new.
Proof.
  intros Hp. apply key_constraint_le. intros k. unfold occurrences.
  rewrite (proj1 (Permutation_count_occ String.string_dec _ _) Hp k). reflexivity.
Qed.

Lemma key_constraint_filter {A} (key : A → string) (c : A → bool) (l : list A) :
  key_constraint (map key l) (map key (List.filter c l)).
Proof.
  apply key_constraint_le. intros k. unfold occurrences.
  induction l as [|r l IH]; simpl; [reflexivity|].
  destruct (c r); simpl; destruct (String.string_dec (key r) k); lia.
Qed.

Lemma occurrences_absent (k : string) (l : list string) :
  k ∉ l → occurrences k l = 0%nat.
Proof.
  intros Hk. apply count_occ_not_In. intros Hin. apply Hk.
  apply list_elem_of_In. exact Hin.
Qed.

Lemma key_constraint_fresh (old : list string) (k : string) :
  k ∉ old → key_constraint old (old ++ [k]).
Proof.
  intros Hk. apply Forall_forall. intros x _. unfold occurrences.
  rewrite count_occ_app. simpl.
  destruct (String.string_dec k x) as [<-|Hne]; [|right; lia].
  left. pose proof (occurrences_absent k old Hk) as H0. unfold occurrences in H0. lia.
Qed.

(** A flush that passes the key check after a row was added: the key of the
    row was free. *)
Lemma key_constraint_added (old : list string) (k : string) :
  key_constraint old (old ++ [k]) → k ∉ old.
Proof.
  intros Hc Hin.
  assert (k ∈ old ++ [k]) as Hk by (apply elem_of_app; right; apply list_elem_of_singleton; reflexivity).
  pose proof (proj1 (Forall_forall _ _) Hc k Hk) as Hocc. unfold occurrences in Hocc.
  rewrite count_occ_app in Hocc. simpl in Hocc.
  destruct (String.string_dec k k); [|congruence].
  apply list_elem_of_In in Hin.
  apply (count_occ_In String.string_dec) in Hin. lia.
Qed.

(** *** References *)

Lemma foreign_key_intro (old_refs new_refs : list (UUID * UUID))
    (old_keys new_keys : list UUID) :
  (∀ r, r ∈ new_refs →
        r.2 ∈ new_keys ∨ (r ∈ old_refs ∧ (r.2 ∈ old_keys → r.2 ∈ new_keys))) →
  foreign_key old_refs new_refs old_keys new_keys.
Proof.
  intros Hr. apply Forall_forall. intros r Hin.
  destruct (Hr r Hin) as [Hk|[Hold Hk]]; [left; exact Hk|].
  destruct (decide (r.2 ∈ old_keys)) as [Hin'|Hout]; [left; auto | right; auto].
Qed.

Lemma foreign_key_same (refs : list (UUID * UUID)) (keys : list UUID) :
  foreign_key refs refs keys keys.
Proof. apply foreign_key_intro. intros r Hr. right. auto. Qed.

(** *** Integers *)

Lemma integer_column_intro (old new : list (UUID * Z)) :
  (∀ r, r ∈ new → fits_integer r.2 ∨ r ∈ old) → integer_column old new.
Proof. intros Hr. apply Forall_forall. exact Hr. Qed.

Lemma integer_column_same (l : list (UUID * Z)) : integer_column l l.
Proof. apply integer_column_intro. auto. Qed.

(** *** Membership in the columns of a table *)

Lemma elem_of_map {A B} (f : A → B) (l : list A) (y : B) :
  y ∈ map f l ↔ ∃ x, In x l ∧ f x = y.
Proof.
  rewrite list_elem_of_In, List.in_map_iff. split; intros (x & H1 & H2); eauto.
Qed.

Lemma head_filter_key {A} (key : A → string) (k : string) (l : list A) :
  k ∈ map key l ↔ head (List.filter (λ r, String.eqb (key r) k) l) ≠ None.
Proof.
  rewrite elem_of_map. split.
  - intros (x & Hin & Hk) Hnone.
    assert (In x (List.filter (λ r, String.eqb (key r) k) l)) as Hf
      by (apply List.filter_In; split; [exact Hin | now apply String.eqb_eq]).
    destruct (List.filter _ l); [destruct Hf | discriminate].
  - intros Hsome. destruct (head _) as [x|] eqn:Hx; [|congruence].
    apply head_filter_In in Hx as [Hin Hk]. apply String.eqb_eq in Hk. eauto.
Qed.

Lemma db_commit_run (s : Session) :
  db_commit s
  = match flush_error (committed s) (pending s) with
    | None => (inr tt, mkSession (pending s) (pending s))
    | Some e => (inl e, mkSession (committed s) (committed s))
    end.
Proof. reflexivity. Qed.

(** ** The flush after each write the services make *)

Lemma map_key_rewritten {A} (pk : A → UUID) (key : A → string) (k : UUID)
    (assign : A → A) (l : list A) :
  (∀ r, key (assign r) = key r) →
  map key (rewritten pk k assign l) ≡ₚ map key l.
Proof.
  intros Hkey. rewrite (Permutation_map key (rewritten_Permutation pk k assign l)).
  rewrite List.map_map.
  erewrite List.map_ext; [reflexivity|].
  intros r. cbn. destruct (String.eqb (pk r) k); [apply Hkey | reflexivity].
Qed.

Lemma elem_of_filter_out {A} (pk : A → UUID) (k x : UUID) (l : list A) :
  x ∈ map pk l → x ≠ k →
  x ∈ map pk (List.filter (λ r, negb (String.eqb (pk r) k)) l).
Proof.
  rewrite !elem_of_map. intros (r & Hin & <-) Hne. exists r.
  split; [|reflexivity]. apply List.filter_In. split; [exact Hin|].
  apply String.eqb_neq in Hne. rewrite Hne. reflexivity.
Qed.

Lemma elem_of_filter_in {A B} (f : A → B) (c : A → bool) (l : list A) (y : B) :
  y ∈ map f (List.filter c l) → y ∈ map f l.
Proof.
  rewrite !elem_of_map. intros (r & Hin & <-). exists r.
  split; [|reflexivity]. apply List.filter_In in Hin as [Hin _]. exact Hin.
Qed.

Section FlushProducts.
Variables (db : DB) (k : UUID) (f : Product.t → Product.t).
Hypothesis f_id : ∀ r, Product.id (f r) = Product.id r.
Hypothesis f_user_id : ∀ r, Product.user_id (f r) = Product.user_id r.

Lemma rewritten_products_keys :
  keys_unique db (with_products (rewritten Product.id k f) db).
Proof.
  repeat split; cbn [with_products users categories products inventory_transactions];
    try apply key_constraint_same.
  apply key_constraint_Permutation, map_key_rewritten, f_id.
Qed.

Lemma rewritten_products_integers :
  (∀ r, In r (products db) → Product.id r = k →
        fits_integer (Product.stock_quantity (f r))) →
  integers_fit db (with_products (rewritten Product.id k f) db).
Proof.
  intros Hfit.
  split; cbn [with_products users categories products inventory_transactions];
    [|apply integer_column_same].
  apply integer_column_intro. intros r Hr.
  apply elem_of_map in Hr as (x & Hx & <-).
  apply rewritten_In in Hx as [[Hx _]|(r0 & Hr0 & Hk & ->)].
  - right. apply elem_of_map. eauto.
  - left. cbn. auto.
Qed.

Lemma rewritten_products_users_and_ledger :
  foreign_key
    (map (λ p, (Product.id p, Product.user_id p)) (products db))
    (map (λ p, (Product.id p, Product.user_id p))
       (rewritten Product.id k f (products db)))
    (map User.id (users db)) (map User.id (users db))
  ∧ foreign_key
      (map (λ t, (InventoryTransaction.id t, InventoryTransaction.product_id t))
         (inventory_transactions db))
      (map (λ t, (InventoryTransaction.id t, InventoryTransaction.product_id t))
         (inventory_transactions db))
      (map Product.id (products db))
      (map Product.id (rewritten Product.id k f (products db))).
Proof.
  split; apply foreign_key_intro; intros r Hr; right.
  - split; [|auto].
    apply elem_of_map in Hr as (x & Hx & <-).
    apply rewritten_In in Hx as [[Hx _]|(r0 & Hr0 & Hk & ->)];
      apply elem_of_map; [eauto|].
    exists r0. rewrite f_id, f_user_id. auto.
  - split; [exact Hr|]. intros Hin.
    rewrite (map_key_rewritten Product.id Product.id k f (products db) f_id).
    exact Hin.
Qed.

(** An update of products is accepted when the new versions fit the integer
    column and refer to a category. *)
Lemma flush_rewritten_products :
  (∀ r, In r (products db) → Product.id r = k →
        fits_integer (Product.stock_quantity (f r))
        ∧ Product.category_id (f r) ∈ map Category.id (categories db)) →
  flush_error db (with_products (rewritten Product.id k f) db) = None.
Proof.
  intros Hnew. apply flush_error_accepts.
  - apply rewritten_products_integers. intros r Hr Hk. apply (Hnew r Hr Hk).
  - apply rewritten_products_keys.
  - split; [|exact rewritten_products_users_and_ledger].
    cbn [with_products users categories products inventory_transactions].
    apply foreign_key_intro. intros r Hr.
    apply elem_of_map in Hr as (x & Hx & <-).
    apply rewritten_In in Hx as [[Hx _]|(r0 & Hr0 & Hk & ->)].
    + right. split; [|auto]. apply elem_of_map. eauto.
    + left. apply (Hnew r0 Hr0 Hk).
Qed.

(** It is refused when a new version refers to a category that is not there
    (and that no product referred to before). *)
Lemma flush_rewritten_products_dangling (p : Product.t) :
  (∀ r, In r (products db) → Product.id r = k →
        fits_integer (Product.stock_quantity (f r))) →
  In p (products db) → Product.id p = k →
  Product.category_id (f p) ∉ map Category.id (categories db) →
  (∀ r, In r (products db) → Product.category_id r ≠ Product.category_id (f p)) →
  flush_error db (with_products (rewritten Product.id k f) db)
  = Some (IntegrityError "violates foreign key constraint").
Proof.
  intros Hfit Hp Hk Hnone Hunused. apply flush_error_foreign_key.
  - apply rewritten_products_integers. exact Hfit.
  - apply rewritten_products_keys.
  - intros [Hfk _].
    cbn [with_products users categories products inventory_transactions] in Hfk.
    assert ((Product.id (f p), Product.category_id (f p))
            ∈ map (λ p, (Product.id p, Product.category_id p))
                (rewritten Product.id k f (products db))) as Hin.
    { apply elem_of_map. exists (f p). split; [|reflexivity].
      apply rewritten_In. right. eauto. }
    destruct (proj1 (Forall_forall _ _) Hfk _ Hin) as [Hthere|[Hold _]].
    + exact (Hnone Hthere).
    + apply elem_of_map in Hold as (x & Hx & Heq).
      injection Heq as _ Hcat. exact (Hunused x Hx Hcat).
Qed.

(** It is refused when a new version does not fit the integer column (and
    the stock was not that value before). *)
Lemma flush_rewritten_products_out_of_range (p : Product.t) :
  In p (products db) → Product.id p = k →
  ¬ fits_integer (Product.stock_quantity (f p)) →
  (∀ r, In r (products db) →
        Product.stock_quantity r ≠ Product.stock_quantity (f p)) →
  flush_error db (with_products (rewritten Product.id k f) db)
  = Some (DataError "integer out of range").
Proof.
  intros Hp Hk Hbig Hunused. apply flush_error_out_of_range.
  intros [Hint _].
  cbn [with_products users categories products inventory_transactions] in Hint.
  assert ((Product.id (f p), Product.stock_quantity (f p))
          ∈ map (λ p, (Product.id p, Product.stock_quantity p))
              (rewritten Product.id k f (products db))) as Hin.
  { apply elem_of_map. exists (f p). split; [|reflexivity].
    apply rewritten_In. right. eauto. }
  destruct (proj1 (Forall_forall _ _) Hint _ Hin) as [Hfits|Hold].
  - exact (Hbig Hfits).
  - apply elem_of_map in Hold as (x & Hx & Heq).
    injection Heq as _ Hst. exact (Hunused x Hx Hst).
Qed.

End FlushProducts.

(** A delete of products is accepted when no movement refers to them. *)
Lemma flush_deleted_product (db : DB) (k : UUID) :
  movements_of db k = [] →
  flush_error db
    (with_products (List.filter (λ r, negb (String.eqb (Product.id r) k))) db)
  = None.
Proof.
  intros Hnone. apply flush_error_accepts.
  - split; cbn [with_products users categories products inventory_transactions];
      [|apply integer_column_same].
    apply integer_column_intro. intros r Hr. right.
    exact (elem_of_filter_in _ _ _ _ Hr).
  - repeat split; cbn [with_products users categories products inventory_transactions];
      try apply key_constraint_same.
    apply key_constraint_filter.
  - repeat split; cbn [with_products users categories products inventory_transactions];
      apply foreign_key_intro; intros r Hr; right.
    + split; [exact (elem_of_filter_in _ _ _ _ Hr) | auto].
    + split; [exact (elem_of_filter_in _ _ _ _ Hr) | auto].
    + split; [exact Hr|]. intros Hin. apply elem_of_filter_out; [exact Hin|].
      apply elem_of_map in Hr as (t & Ht & <-). cbn.
      apply String.eqb_neq. exact (filter_none_inv _ _ t Hnone Ht).
Qed.

(** It is refused when a movement refers to one of them. *)
Lemma flush_deleted_product_referenced (db : DB) (k : UUID) :
  k ∈ map Product.id (products db) →
  movements_of db k ≠ [] →
  flush_error db
    (with_products (List.filter (λ r, negb (String.eqb (Product.id r) k))) db)
  = Some (IntegrityError "violates foreign key constraint").
Proof.
  intros Hk Hsome. apply flush_error_foreign_key.
  - split; cbn [with_products users categories products inventory_transactions];
      [|apply integer_column_same].
    apply integer_column_intro. intros r Hr. right.
    exact (elem_of_filter_in _ _ _ _ Hr).
  - repeat split; cbn [with_products users categories products inventory_transactions];
      try apply key_constraint_same.
    apply key_constraint_filter.
  - intros (_ & _ & Hfk).
    cbn [with_products users categories products inventory_transactions] in Hfk.
    unfold movements_of in Hsome.
    destruct (List.filter _ (inventory_transactions db)) as [|t ts] eqn:Hf;
      [congruence|].
    assert (In t (List.filter
                    (λ t, String.eqb (InventoryTransaction.product_id t) k)
                    (inventory_transactions db))) as Ht
      by (rewrite Hf; left; reflexivity).
    apply List.filter_In in Ht as [Ht Htk]. apply String.eqb_eq in Htk.
    assert ((InventoryTransaction.id t, InventoryTransaction.product_id t)
            ∈ map (λ t, (InventoryTransaction.id t, InventoryTransaction.product_id t))
                (inventory_transactions db)) as Hin
      by (apply elem_of_map; eauto).
    destruct (proj1 (Forall_forall _ _) Hfk _ Hin) as [Hthere|[_ Hnot]]; cbn in *.
    + rewrite Htk in Hthere.
      apply elem_of_map in Hthere as (r & Hr & Hrk).
      apply List.filter_In in Hr as [_ Hr].
      apply String.eqb_eq in Hrk. rewrite Hrk in Hr. discriminate.
    + rewrite Htk in Hnot. exact (Hnot Hk).
Qed.

(** A delete of categories is accepted when no product refers to them. *)
Lemma flush_deleted_category (db : DB) (k : UUID) :
  products_of db k = [] →
  flush_error db
    (with_categories (List.filter (λ r, negb (String.eqb (Category.id r) k))) db)
  = None.
Proof.
  intros Hnone. apply flush_error_accepts.
  - split; apply integer_column_same.
  - repeat split; cbn [with_categories users categories products inventory_transactions];
      try apply key_constraint_same.
    apply key_constraint_filter.
  - repeat split; cbn [with_categories users categories products inventory_transactions];
      try apply foreign_key_same.
    apply foreign_key_intro; intros r Hr; right.
    split; [exact Hr|]. intros Hin. apply elem_of_filter_out; [exact Hin|].
    apply elem_of_map in Hr as (p & Hp & <-). cbn.
    apply String.eqb_neq. exact (filter_none_inv _ _ p Hnone Hp).
Qed.

(** It is refused when a product refers to one of them. *)
Lemma flush_deleted_category_referenced (db : DB) (k : UUID) :
  k ∈ map Category.id (categories db) →
  products_of db k ≠ [] →
  flush_error db
    (with_categories (List.filter (λ r, negb (String.eqb (Category.id r) k))) db)
  = Some (IntegrityError "violates foreign key constraint").
Proof.
  intros Hk Hsome. apply flush_error_foreign_key.
  - split; apply integer_column_same.
  - repeat split; cbn [with_categories users categories products inventory_transactions];
      try apply key_constraint_same.
    apply key_constraint_filter.
  - intros (Hfk & _).
    cbn [with_categories users categories products inventory_transactions] in Hfk.
    unfold products_of in Hsome.
    destruct (List.filter _ (products db)) as [|p ps] eqn:Hf; [congruence|].
    assert (In p (List.filter (λ p, String.eqb (Product.category_id p) k)
                    (products db))) as Hp
      by (rewrite Hf; left; reflexivity).
    apply List.filter_In in Hp as [Hp Hpk]. apply String.eqb_eq in Hpk.
    assert ((Product.id p, Product.category_id p)
            ∈ map (λ p, (Product.id p, Product.category_id p)) (products db)) as Hin
      by (apply elem_of_map; eauto).
    destruct (proj1 (Forall_forall _ _) Hfk _ Hin) as [Hthere|[_ Hnot]]; cbn in *.
    + rewrite Hpk in Hthere.
      apply elem_of_map in Hthere as (r & Hr & Hrk).
      apply List.filter_In in Hr as [_ Hr].
      apply String.eqb_eq in Hrk. rewrite Hrk in Hr. discriminate.
    + rewrite Hpk in Hnot. exact (Hnot Hk).
Qed.

(** An update of categories is always accepted. *)
Lemma flush_rewritten_categories (db : DB) (k : UUID) (f : Category.t → Category.t) :
  (∀ r, Category.id (f r) = Category.id r) →
  flush_error db (with_categories (rewritten Category.id k f) db) = None.
Proof.
  intros Hid. apply flush_error_accepts.
  - split; apply integer_column_same.
  - repeat split; cbn [with_categories users categories products inventory_transactions];
      try apply key_constraint_same.
    apply key_constraint_Permutation, map_key_rewritten, Hid.
  - repeat split; cbn [with_categories users categories products inventory_transactions];
      try apply foreign_key_same.
    apply foreign_key_intro; intros r Hr; right.
    split; [exact Hr|]. intros Hin.
    rewrite (map_key_rewritten Category.id Category.id k f (categories db) Hid).
    exact Hin.
Qed.

(** A new category is accepted when its identifier is free. *)
Lemma flush_added_category (db : DB) (c : Category.t) :
  Category.id c ∉ map Category.id (categories db) →
  flush_error db (with_categories (λ rows, rows ++ [c]) db) = None.
Proof.
  intros Hfree. apply flush_error_accepts.
  - split; apply integer_column_same.
  - repeat split; cbn [with_categories users categories products inventory_transactions];
      try apply key_constraint_same.
    rewrite List.map_app. apply key_constraint_fresh. exact Hfree.
  - repeat split; cbn [with_categories users categories products inventory_transactions];
      try apply foreign_key_same.
    apply foreign_key_intro; intros r Hr; right.
    split; [exact Hr|]. intros Hin. rewrite List.map_app.
    apply elem_of_app. left. exact Hin.
Qed.

(** A new user is accepted when its identifier and its email are free. *)
Lemma flush_added_user (db : DB) (u : User.t) :
  User.id u ∉ map User.id (users db) →
  User.email u ∉ map User.email (users db) →
  flush_error db (with_users (λ rows, rows ++ [u]) db) = None.
Proof.
  intros Hid Hemail. apply flush_error_accepts.
  - split; apply integer_column_same.
  - repeat split; cbn [with_users users categories products inventory_transactions];
      try apply key_constraint_same;
      rewrite List.map_app; apply key_constraint_fresh; assumption.
  - repeat split; cbn [with_users users categories products inventory_transactions];
      try apply foreign_key_same.
    apply foreign_key_intro; intros r Hr; right.
    split; [exact Hr|]. intros Hin. rewrite List.map_app.
    apply elem_of_app. left. exact Hin.
Qed.

(** A new product is accepted when its identifier is free, its stock fits
    the integer column, and its category and its owner are there. *)
Lemma flush_added_product (db : DB) (p : Product.t) :
  Product.id p ∉ map Product.id (products db) →
  fits_integer (Product.stock_quantity p) →
  Product.category_id p ∈ map Category.id (categories db) →
  Product.user_id p ∈ map User.id (users db) →
  flush_error db (with_products (λ rows, rows ++ [p]) db) = None.
Proof.
  intros Hfree Hfit Hcat Huser. apply flush_error_accepts.
  - split; cbn [with_products users categories products inventory_transactions];
      [|apply integer_column_same].
    apply integer_column_intro. intros r Hr. rewrite List.map_app in Hr.
    apply elem_of_app in Hr as [Hr|Hr]; [right; exact Hr|].
    apply list_elem_of_singleton in Hr. subst r. left. exact Hfit.
  - repeat split; cbn [with_products users categories products inventory_transactions];
      try apply key_constraint_same.
    rewrite List.map_app. apply key_constraint_fresh. exact Hfree.
  - repeat split; cbn [with_products users categories products inventory_transactions];
      apply foreign_key_intro; intros r Hr.
    + rewrite List.map_app in Hr. apply elem_of_app in Hr as [Hr|Hr]; [right; auto|].
      apply list_elem_of_singleton in Hr. subst r. left. exact Hcat.
    + rewrite List.map_app in Hr. apply elem_of_app in Hr as [Hr|Hr]; [right; auto|].
      apply list_elem_of_singleton in Hr. subst r. left. exact Huser.
    + right. split; [exact Hr|]. intros Hin. rewrite List.map_app.
      apply elem_of_app. left. exact Hin.
Qed.

(** What a flush that accepts a new row says of the row. *)
Lemma flush_added_product_inv (db : DB) (p : Product.t) :
  flush_error db (with_products (λ rows, rows ++ [p]) db) = None →
  Product.id p ∉ map Product.id (products db).
Proof.
  intros Hf. apply flush_error_None in Hf as (_ & Hk & _).
  destruct Hk as (_ & _ & _ & Hk & _).
  cbn [with_products products] in Hk. rewrite List.map_app in Hk.
  exact (key_constraint_added _ _ Hk).
Qed.

Lemma flush_added_category_inv (db : DB) (c : Category.t) :
  flush_error db (with_categories (λ rows, rows ++ [c]) db) = None →
  Category.id c ∉ map Category.id (categories db).
Proof.
  intros Hf. apply flush_error_None in Hf as (_ & Hk & _).
  destruct Hk as (_ & _ & Hk & _).
  cbn [with_categories categories] in Hk. rewrite List.map_app in Hk.
  exact (key_constraint_added _ _ Hk).
Qed.

Lemma flush_added_user_inv (db : DB) (u : User.t) :
  flush_error db (with_users (λ rows, rows ++ [u]) db) = None →
  User.id u ∉ map User.id (users db).
Proof.
  intros Hf. apply flush_error_None in Hf as (_ & Hk & _).
  destruct Hk as (Hk & _).
  cbn [with_users users] in Hk. rewrite List.map_app in Hk.
  exact (key_constraint_added _ _ Hk).
Qed.

(** A new product whose stock does not fit is refused by the integer
    column. *)
Lemma flush_added_product_out_of_range (db : DB) (p : Product.t) :
  Product.id p ∉ map Product.id (products db) →
  ¬ fits_integer (Product.stock_quantity p) →
  flush_error db (with_products (λ rows, rows ++ [p]) db)
  = Some (DataError "integer out of range").
Proof.
  intros Hfree Hbig. apply flush_error_out_of_range. intros [Hint _].
  cbn [with_products users categories products inventory_transactions] in Hint.
  assert ((Product.id p, Product.stock_quantity p)
          ∈ map (λ p, (Product.id p, Product.stock_quantity p)) (products db ++ [p]))
    as Hin.
  { apply elem_of_map. exists p. split; [|reflexivity].
    apply List.in_or_app. right. left. reflexivity. }
  destruct (proj1 (Forall_forall _ _) Hint _ Hin) as [Hfits|Hold].
  - exact (Hbig Hfits).
  - apply elem_of_map in Hold as (x & Hx & Heq). injection Heq as Hid _.
    apply Hfree. apply elem_of_map. eauto.
Qed.

(** ** The stock ledger *)

Section Ledger.
Context `{E : Env}.

Lemma get_product_find (product_id : UUID) (s : Session) :
  get_product product_id s = (inr (find_product (pending s) product_id), s).
Proof. reflexivity. Qed.

Lemma create_inventory_transaction_unknown_product
    (product_id : UUID) (transaction : InventoryTransactionCreate.t)
    (user_id : UUID) (s : Session) :
  find_product (pending s) product_id = None →
  create_inventory_transaction product_id transaction user_id s
  = (inl (ValueError "Product not found"), s).
Proof.
  intros Hp. unfold create_inventory_transaction, bind.
  rewrite Query_first_filter. unfold find_product in Hp. rewrite Hp. reflexivity.
Qed.

(** For a product that exists, the call stops in the constructor of the new
    row: [user_id] is not an attribute of [InventoryTransaction]. *)
Lemma create_inventory_transaction_known_product
    (product_id : UUID) (transaction : InventoryTransactionCreate.t)
    (user_id : UUID) (s : Session) (p : Product.t) :
  find_product (pending s) product_id = Some p →
  create_inventory_transaction product_id transaction user_id s
  = (inl (TypeError invalid_user_id), s).
Proof.
  intros Hp. unfold create_inventory_transaction, bind.
  rewrite Query_first_filter. unfold find_product in Hp. rewrite Hp. reflexivity.
Qed.

(** Whatever its arguments, the call commits nothing. *)
Lemma create_inventory_transaction_commits_nothing
    (product_id : UUID) (transaction : InventoryTransactionCreate.t)
    (user_id : UUID) (db : DB) :
  snd (run_request (create_inventory_transaction product_id transaction user_id) db)
  = db.
Proof.
  unfold run_request.
  destruct (find_product db product_id) as [p|] eqn:Hp.
  - rewrite (create_inventory_transaction_known_product _ _ _ (mkSession db db) p Hp).
    reflexivity.
  - rewrite (create_inventory_transaction_unknown_product _ _ _ (mkSession db db) Hp).
    reflexivity.
Qed.

(** *** The block that adjusts the stock counter *)

Lemma update_stock_quantity_entry (p : Product.t)
    (transaction : InventoryTransactionCreate.t) (s : Session) :
  InventoryTransactionCreate.type transaction = "entry" →
  update_stock_quantity p transaction s
  = setattr with_products Product.id p
      (Product.set_stock_quantity
         (Product.stock_quantity p + InventoryTransactionCreate.quantity transaction))
      s.
Proof. intros Hty. unfold update_stock_quantity. rewrite Hty. reflexivity. Qed.

Lemma update_stock_quantity_exit (p : Product.t)
    (transaction : InventoryTransactionCreate.t) (s : Session) :
  InventoryTransactionCreate.type transaction = "exit" →
  InventoryTransactionCreate.quantity transaction ≤ Product.stock_quantity p →
  update_stock_quantity p transaction s
  = setattr with_products Product.id p
      (Product.set_stock_quantity
         (Product.stock_quantity p - InventoryTransactionCreate.quantity transaction))
      s.
Proof.
  intros Hty Hq. unfold update_stock_quantity. rewrite Hty. simpl.
  destruct (Z.ltb_spec (Product.stock_quantity p)
              (InventoryTransactionCreate.quantity transaction)); [lia|reflexivity].
Qed.

Lemma update_stock_quantity_exit_insufficient (p : Product.t)
    (transaction : InventoryTransactionCreate.t) (s : Session) :
  InventoryTransactionCreate.type transaction = "exit" →
  Product.stock_quantity p < InventoryTransactionCreate.quantity transaction →
  update_stock_quantity p transaction s
  = (inl (ValueError "Insufficient stock quantity"), s).
Proof.
  intros Hty Hq. unfold update_stock_quantity. rewrite Hty. simpl.
  destruct (Z.ltb_spec (Product.stock_quantity p)
              (InventoryTransactionCreate.quantity transaction)); [reflexivity|lia].
Qed.

Lemma update_stock_quantity_other (p : Product.t)
    (transaction : InventoryTransactionCreate.t) (s : Session) :
  InventoryTransactionCreate.type transaction ≠ "entry" →
  InventoryTransactionCreate.type transaction ≠ "exit" →
  update_stock_quantity p transaction s = (inr p, s).
Proof.
  intros Hentry Hexit. unfold update_stock_quantity.
  apply String.eqb_neq in Hentry, Hexit. rewrite Hentry, Hexit. reflexivity.
Qed.

(** After an assignment to the counter of [p], the session sees the product
    with the new counter. *)
Lemma setattr_stock_quantity_find (p : Product.t) (v : Z) (s : Session) :
  find_product (pending s) (Product.id p) = Some p →
  ∃ s', setattr with_products Product.id p (Product.set_stock_quantity v) s
        = (inr (Product.set_stock_quantity v p), s')
        ∧ committed s' = committed s
        ∧ find_product (pending s') (Product.id p)
          = Some (Product.set_stock_quantity v p).
Proof.
  intros Hp. eexists. split; [reflexivity|]. split; [reflexivity|].
  unfold find_product in *. cbn [pending with_products products].
  exact (head_filter_rewritten Product.id _ (Product.set_stock_quantity v) _ _
           (λ _, eq_refl) Hp).
Qed.

Lemma setattr_stock_quantity_nonneg (p : Product.t) (v : Z) (s : Session) :
  stock_nonneg (pending s) → 0 ≤ v →
  stock_nonneg
    (pending (snd (setattr with_products Product.id p (Product.set_stock_quantity v) s))).
Proof.
  unfold stock_nonneg. intros Hs Hv. cbn [setattr bind modify_pending ret snd pending
    with_products products].
  apply List.Forall_forall. intros x Hx.
  apply rewritten_In in Hx as [[Hx _]|(r & Hr & _ & ->)].
  - exact (proj1 (List.Forall_forall _ _) Hs x Hx).
  - exact Hv.
Qed.

(** The block keeps every counter non-negative when the quantity is positive,
    and touches only what the session has pending. *)
Lemma update_stock_quantity_nonneg (p : Product.t)
    (transaction : InventoryTransactionCreate.t) (s : Session) :
  stock_nonneg (pending s) →
  0 ≤ Product.stock_quantity p →
  0 < InventoryTransactionCreate.quantity transaction →
  stock_nonneg (pending (snd (update_stock_quantity p transaction s)))
  ∧ committed (snd (update_stock_quantity p transaction s)) = committed s.
Proof.
  intros Hs Hp Hq.
  destruct (String.eqb_spec (InventoryTransactionCreate.type transaction) "entry")
    as [Hentry|Hentry].
  { rewrite update_stock_quantity_entry by exact Hentry.
    split; [apply setattr_stock_quantity_nonneg; [exact Hs|lia] | reflexivity]. }
  destruct (String.eqb_spec (InventoryTransactionCreate.type transaction) "exit")
    as [Hexit|Hexit].
  { destruct (Z.lt_ge_cases (Product.stock_quantity p)
                (InventoryTransactionCreate.quantity transaction)) as [Hlt|Hge].
    - rewrite update_stock_quantity_exit_insufficient by assumption.
      split; [exact Hs | reflexivity].
    - rewrite update_stock_quantity_exit by assumption.
      split; [apply setattr_stock_quantity_nonneg; [exact Hs|lia] | reflexivity]. }
  rewrite update_stock_quantity_other by assumption.
  split; [exact Hs | reflexivity].
Qed.

(** What the block does to the counter of a product the session holds: an
    entry adds the quantity, an exit within the stock subtracts it, an exit
    beyond the stock raises and changes nothing. *)
Lemma update_stock_quantity_rule (p : Product.t)
    (transaction : InventoryTransactionCreate.t) (s : Session) :
  find_product (pending s) (Product.id p) = Some p →
  let q := InventoryTransactionCreate.quantity transaction in
  let run := update_stock_quantity p transaction s in
  (InventoryTransactionCreate.type transaction = "entry" →
     ∃ p', fst run = inr p'
           ∧ find_product (pending (snd run)) (Product.id p) = Some p'
           ∧ Product.stock_quantity p' = Product.stock_quantity p + q)
  ∧ (InventoryTransactionCreate.type transaction = "exit" →
     q ≤ Product.stock_quantity p →
     ∃ p', fst run = inr p'
           ∧ find_product (pending (snd run)) (Product.id p) = Some p'
           ∧ Product.stock_quantity p' = Product.stock_quantity p - q)
  ∧ (InventoryTransactionCreate.type transaction = "exit" →
     Product.stock_quantity p < q →
     run = (inl (ValueError "Insufficient stock quantity"), s)).
Proof.
  intros Hp q run. subst q run. split; [|split].
  - intros Hty. rewrite update_stock_quantity_entry by exact Hty.
    destruct (setattr_stock_quantity_find p
                (Product.stock_quantity p
                 + InventoryTransactionCreate.quantity transaction) s Hp)
      as (s' & -> & _ & Hfind).
    eexists. split; [reflexivity|]. split; [exact Hfind | reflexivity].
  - intros Hty Hq. rewrite update_stock_quantity_exit by assumption.
    destruct (setattr_stock_quantity_find p
                (Product.stock_quantity p
                 - InventoryTransactionCreate.quantity transaction) s Hp)
      as (s' & -> & _ & Hfind).
    eexists. split; [reflexivity|]. split; [exact Hfind | reflexivity].
  - intros Hty Hq. now apply update_stock_quantity_exit_insufficient.
Qed.

End Ledger.

(** C2: [stock_quantity] is never driven below zero by the ledger.  First
    part: from a store in which a product has a non-negative counter, a call
    of [create_inventory_transaction], whatever its arguments and its
    outcome, leaves a store in which that product is still found with a
    non-negative counter.  Second part: the block that adjusts the counter
    keeps every counter non-negative for a validated transaction (quantity
    greater than zero), whether it takes the entry branch, the exit branch
    or raises for lack of stock. *)
Theorem stock_quantity_never_negative `{E : Env} :
  (∀ (db : DB) (product_id : UUID) (transaction : InventoryTransactionCreate.t)
     (user_id q : UUID) (p : Product.t),
      find_product db q = Some p →
      0 ≤ Product.stock_quantity p →
      ∃ p',
        find_product
          (snd (run_request
                  (create_inventory_transaction product_id transaction user_id) db)) q
        = Some p'
        ∧ 0 ≤ Product.stock_quantity p')
  ∧ (∀ (s : Session) (p : Product.t) (transaction : InventoryTransactionCreate.t),
      stock_nonneg (pending s) →
      0 ≤ Product.stock_quantity p →
      InventoryTransactionCreate.validate transaction = true →
      stock_nonneg (pending (snd (update_stock_quantity p transaction s)))).
Proof.
  split.
  - intros db product_id transaction user_id q p Hfind Hp.
    rewrite create_inventory_transaction_commits_nothing. eauto.
  - intros s p transaction Hs Hp Hv.
    apply update_stock_quantity_nonneg; [exact Hs | exact Hp |].
    unfold InventoryTransactionCreate.validate in Hv. lia.
Qed.

Lemma stock_quantity_never_negative_witness :
  (∃ p',
      find_product
        (snd (run_request
                (create_inventory_transaction (E := Demo.env) "p1" (Demo.exit 3) "u1")
                Demo.db)) "p1"
      = Some p'
      ∧ 0 ≤ Product.stock_quantity p')
  ∧ stock_nonneg
      (pending (snd (update_stock_quantity Demo.hammer (Demo.exit 3)
                       (mkSession Demo.db Demo.db)))).
Proof.
  split.
  - apply (proj1 (stock_quantity_never_negative (E := Demo.env))
             Demo.db "p1" (Demo.exit 3) "u1" "p1" Demo.hammer).
    + reflexivity.
    + simpl. lia.
  - apply (proj2 (stock_quantity_never_negative (E := Demo.env))
             (mkSession Demo.db Demo.db) Demo.hammer (Demo.exit 3)).
    + repeat constructor. simpl. lia.
    + simpl. lia.
    + reflexivity.
Defined.

(** C1: recording an entry does not raise the counter.  In the store with
    one product holding five units, the entry of three units stops in the
    constructor of the row with a [TypeError]; the endpoint does not catch
    it; the store is as before and the counter is five, not eight. *)
Example entry_transaction_not_recorded :
  run_request (create_inventory_transaction (E := Demo.env) "p1" (Demo.entry 3) "u1")
    Demo.db
  = (inl (TypeError invalid_user_id), Demo.db)
  ∧ run_request
      (create_transaction (E := Demo.env) 0 (mkRequest (Some "a@x.com")) "p1"
         (Demo.entry 3))
      Demo.db
    = (inl (TypeError invalid_user_id), Demo.db)
  ∧ Product.stock_quantity <$> find_product Demo.db "p1" = Some 5.
Proof. split; [reflexivity | split; reflexivity]. Qed.

(** C3: no row is left behind by an exit that exceeds the stock.  In the
    store with five units and an empty ledger, the exit of nine units raises
    [TypeError] from the constructor, not the [ValueError] of the stock
    check, and the ledger is still empty. *)
Example excess_exit_leaves_no_row :
  run_request (create_inventory_transaction (E := Demo.env) "p1" (Demo.exit 9) "u1")
    Demo.db
  = (inl (TypeError invalid_user_id), Demo.db)
  ∧ inventory_transactions Demo.db = []
  ∧ TypeError invalid_user_id ≠ ValueError "Insufficient stock quantity".
Proof. split; [reflexivity | split; [reflexivity | discriminate]]. Qed.

(** C10: a transaction of another type is not recorded either.  In the same
    store, a transaction of type [adjustment] raises [TypeError]; no row is
    persisted and none is returned. *)
Example other_type_not_recorded :
  InventoryTransactionCreate.validate (Demo.adjustment 2) = true
  ∧ run_request
      (create_inventory_transaction (E := Demo.env) "p1" (Demo.adjustment 2) "u1")
      Demo.db
    = (inl (TypeError invalid_user_id), Demo.db)
  ∧ inventory_transactions Demo.db = [].
Proof. split; [reflexivity | split; reflexivity]. Qed.

(** C4: exits against one product, whose quantities sum to more than the
    stock, run one after the other: that is one of the schedules the claim
    speaks of.  In the store with five units, two exits of three units do not
    split into one that succeeds and one that fails for lack of stock: each
    stops in the constructor of the row with a [TypeError], through the
    service and through the endpoint alike, none succeeds, and the store,
    with its five units and its empty ledger, is as before. *)
Example serial_exits_none_succeeds :
  let exit_of_three :=
    run_request
      (create_inventory_transaction (E := Demo.env) "p1" (Demo.exit 3) "u1") in
  let request_of_three :=
    run_request
      (create_transaction (E := Demo.env) 0 (mkRequest (Some "a@x.com")) "p1"
         (Demo.exit 3)) in
  Product.stock_quantity <$> find_product Demo.db "p1" = Some 5
  ∧ 5 < 3 + 3
  ∧ exit_of_three Demo.db = (inl (TypeError invalid_user_id), Demo.db)
  ∧ exit_of_three (snd (exit_of_three Demo.db))
    = (inl (TypeError invalid_user_id), Demo.db)
  ∧ request_of_three Demo.db = (inl (TypeError invalid_user_id), Demo.db)
  ∧ request_of_three (snd (request_of_three Demo.db))
    = (inl (TypeError invalid_user_id), Demo.db)
  ∧ TypeError invalid_user_id ≠ ValueError "Insufficient stock quantity".
Proof.
  cbv zeta. split; [reflexivity|]. split; [lia|].
  repeat (split; [reflexivity|]). discriminate.
Qed.

(** ** The product store *)

Section ProductStore.
Context `{E : Env}.

(** The six assignments of [update_product] are one write of the row. *)
Lemma update_product_pending (db : DB) (k : UUID) (product : ProductCreate.t) :
  with_products
    (rewritten Product.id k
       (Product.set_category_id (ProductCreate.category_id product)))
    (with_products
       (rewritten Product.id k
          (Product.set_image_url (ProductCreate.image_url product)))
       (with_products
          (rewritten Product.id k
             (Product.set_stock_quantity (ProductCreate.stock_quantity product)))
          (with_products
             (rewritten Product.id k
                (Product.set_price (ProductCreate.price product)))
             (with_products
                (rewritten Product.id k
                   (Product.set_description (ProductCreate.description product)))
                (with_products
                   (rewritten Product.id k
                      (Product.set_name (ProductCreate.name product)))
                   db)))))
  = with_products (rewritten Product.id k (updated product)) db.
Proof.
  unfold with_products. cbn [users categories products inventory_transactions].
  f_equal. rewrite !(rewritten_compose Product.id) by (intros; reflexivity).
  apply rewritten_ext. intros r. reflexivity.
Qed.

(** The whole effect of [update_product]: the rows with the identifier are
    written anew and the flush decides. *)
Lemma update_product_run (db : DB) (product_id : UUID) (product : ProductCreate.t) :
  run_request (update_product product_id product) db
  = match find_product db product_id with
    | Some p =>
        let db' :=
          with_products (rewritten Product.id product_id (updated product)) db in
        match flush_error db db' with
        | None => (inr (updated product p), db')
        | Some e => (inl e, db)
        end
    | None => (inl (ValueError "Product not found"), db)
    end.
Proof.
  unfold run_request, update_product, bind, find_product.
  rewrite Query_first_filter. cbn [pending].
  destruct (head (List.filter _ (products db))) as [p|] eqn:Hp; [|reflexivity].
  pose proof (head_filter_pk _ _ _ _ Hp) as Hid. subst product_id.
  unfold setattr, bind, modify_pending, ret.
  cbn [pending committed Product.id Product.set_name
       Product.set_description Product.set_price Product.set_stock_quantity
       Product.set_image_url Product.set_category_id].
  rewrite update_product_pending, db_commit_run. cbn [pending committed]. cbv zeta.
  destruct (flush_error db _); [reflexivity|].
  unfold db_refresh.
  cbn [pending with_products products Product.id Product.set_name
       Product.set_description Product.set_price Product.set_stock_quantity
       Product.set_image_url Product.set_category_id].
  rewrite (head_filter_rewritten Product.id (Product.id p) (updated product) _ _
             (λ _, eq_refl) Hp).
  reflexivity.
Qed.

(** The whole effect of [delete_product]. *)
Lemma delete_product_run (db : DB) (product_id : UUID) :
  run_request (delete_product product_id) db
  = match find_product db product_id with
    | Some p =>
        let db' :=
          with_products
            (List.filter (λ r, negb (String.eqb (Product.id r) product_id))) db in
        match flush_error db db' with
        | None => (inr p, db')
        | Some e => (inl e, db)
        end
    | None => (inl (ValueError "Product not found"), db)
    end.
Proof.
  unfold run_request, delete_product, bind, find_product.
  rewrite Query_first_filter. cbn [pending].
  destruct (head (List.filter _ (products db))) as [p|] eqn:Hp; [|reflexivity].
  pose proof (head_filter_pk _ _ _ _ Hp) as Hid. subst product_id.
  unfold db_delete, modify_pending. rewrite db_commit_run.
  cbn [pending committed]. cbv zeta.
  destruct (flush_error db _); reflexivity.
Qed.

(** The whole effect of [create_product]. *)
Lemma create_product_run (db : DB) (product : ProductCreate.t) (user_id : UUID) :
  run_request (create_product product user_id) db
  = match find_category db (ProductCreate.category_id product) with
    | Some _ =>
        let db' := with_products (λ rows, rows ++ [created product user_id]) db in
        match flush_error db db' with
        | None => (inr (created product user_id), db')
        | Some e => (inl e, db)
        end
    | None => (inl (ValueError "Category not found"), db)
    end.
Proof.
  unfold run_request, create_product, bind, find_category.
  rewrite Query_first_filter. cbn [pending].
  destruct (head (List.filter _ (categories db))) as [c|]; [|reflexivity].
  rewrite declarative_constructor_accepts
    by (repeat constructor; unfold Product.columns; set_solver).
  unfold db_add, modify_pending. rewrite db_commit_run.
  cbn [pending committed]. cbv zeta.
  fold (created product user_id).
  destruct (flush_error db _) eqn:Hflush; [reflexivity|].
  apply flush_added_product_inv in Hflush.
  unfold db_refresh. cbn [pending with_products products].
  rewrite (head_filter_app_new _ _ (created product user_id)).
  - reflexivity.
  - destruct (head _) eqn:Hh; [|reflexivity]. exfalso. apply Hflush.
    apply head_filter_key. cbn [created Product.id] in *. congruence.
  - apply String.eqb_refl.
Qed.

(** C9, amended: [update_product] on a known product id replaces name,
    description, price, stock_quantity, image_url and category_id by the
    supplied values (identifier and owner stay), commits, and the product is
    then found with the new values, provided the supplied category_id
    denotes a category and the supplied stock_quantity fits the integer
    column.  The function itself asks nothing of the category_id, but the
    commit does: when it denotes no category, the foreign key of the
    products table refuses the update with an integrity error, and when the
    stock_quantity does not fit, the column refuses it with a data error;
    the store is as before in both cases.  On an unknown product id the
    function raises "Product not found" and the store is as before.  The
    store is taken to satisfy what the schema guarantees: every product
    refers to a category and every stock counter fits. *)
Theorem update_product_replaces_fields
    (db : DB) (product_id : UUID) (product : ProductCreate.t) :
  products_have_categories db →
  stocks_fit db →
  (find_product db product_id = None →
   run_request (update_product product_id product) db
   = (inl (ValueError "Product not found"), db))
  ∧ ∀ p, find_product db product_id = Some p →
      (fits_integer (ProductCreate.stock_quantity product) →
       ∀ c, find_category db (ProductCreate.category_id product) = Some c →
       ∃ p' db',
         run_request (update_product product_id product) db = (inr p', db')
         ∧ Product.name p' = ProductCreate.name product
         ∧ Product.description p' = ProductCreate.description product
         ∧ Product.price p' = ProductCreate.price product
         ∧ Product.stock_quantity p' = ProductCreate.stock_quantity product
         ∧ Product.image_url p' = ProductCreate.image_url product
         ∧ Product.category_id p' = ProductCreate.category_id product
         ∧ Product.id p' = Product.id p
         ∧ Product.user_id p' = Product.user_id p
         ∧ find_product db' product_id = Some p')
      ∧ (fits_integer (ProductCreate.stock_quantity product) →
         find_category db (ProductCreate.category_id product) = None →
         ∃ msg,
           run_request (update_product product_id product) db
           = (inl (IntegrityError msg), db))
      ∧ (¬ fits_integer (ProductCreate.stock_quantity product) →
         ∃ msg,
           run_request (update_product product_id product) db
           = (inl (DataError msg), db)).
Proof.
  intros Hcats Hfits. rewrite update_product_run. split.
  { intros ->. reflexivity. }
  intros p Hp. rewrite Hp. cbv zeta.
  pose proof (head_filter_In _ _ _ Hp) as [Hin Hk]. apply String.eqb_eq in Hk.
  split; [|split].
  - intros Hfit c Hc.
    rewrite (flush_rewritten_products db product_id (updated product)
               (λ _, eq_refl) (λ _, eq_refl))
      by (intros r _ _; split; [exact Hfit|];
          apply head_filter_key; unfold find_category in Hc; cbn; congruence).
    do 2 eexists. split; [reflexivity|]. repeat (split; [reflexivity|]).
    exact (head_filter_rewritten Product.id product_id (updated product) _ _
             (λ _, eq_refl) Hp).
  - intros Hfit Hc.
    rewrite (flush_rewritten_products_dangling db product_id (updated product)
               (λ _, eq_refl) p).
    + eexists. reflexivity.
    + intros r _ _. exact Hfit.
    + exact Hin.
    + exact Hk.
    + intros Hthere. apply head_filter_key in Hthere. exact (Hthere Hc).
    + intros r Hr Heq. apply (Hcats r Hr). rewrite Heq. exact Hc.
  - intros Hbig.
    rewrite (flush_rewritten_products_out_of_range db product_id (updated product) p).
    + eexists. reflexivity.
    + exact Hin.
    + exact Hk.
    + exact Hbig.
    + intros r Hr Heq. apply Hbig. cbn in Heq. cbn. rewrite <- Heq.
      exact (Hfits r Hr).
Qed.

(** The endpoint turns the failure of the service into status 404. *)
Lemma update_existing_product_not_found (now : datetime) (request : Request)
    (db : DB) (u : User.t) (product_id : UUID) (product : ProductCreate.t) :
  Depends_get_current_user now request (mkSession db db) = (inr u, mkSession db db) →
  find_product db product_id = None →
  run_request (update_existing_product now request product_id product) db
  = (inl (HTTPException 404 "Product not found" []), db).
Proof.
  intros Hu Hp. unfold run_request, update_existing_product.
  rewrite (bind_ret _ _ _ _ _ Hu).
  unfold try_except_ValueError, update_product, bind.
  rewrite Query_first_filter. cbn [pending].
  unfold find_product in Hp. rewrite Hp. reflexivity.
Qed.

End ProductStore.

(** C9, as the specification has it, fails.  In the store with product [p1]
    of category [c1], an update of [p1] whose category_id denotes no
    category does not succeed: the commit raises an integrity error, and the
    product is as before, with its old name, stock and category. *)
Example update_product_missing_category_refused :
  find_product Demo.db "p1" = Some Demo.hammer
  ∧ find_category Demo.db "no-such-category" = None
  ∧ run_request
      (update_product "p1"
         (ProductCreate.mk "Mallet" None 12%float 7 None "no-such-category" "u1"))
      Demo.db
    = (inl (IntegrityError "violates foreign key constraint"), Demo.db)
  ∧ ∀ p' db',
      run_request
        (update_product "p1"
           (ProductCreate.mk "Mallet" None 12%float 7 None "no-such-category" "u1"))
        Demo.db
      ≠ (inr p', db').
Proof.
  assert (run_request
            (update_product "p1"
               (ProductCreate.mk "Mallet" None 12%float 7 None "no-such-category"
                  "u1")) Demo.db
          = (inl (IntegrityError "violates foreign key constraint"), Demo.db)) as Hrun
    by (vm_compute; reflexivity).
  split; [reflexivity|]. split; [reflexivity|]. split; [exact Hrun|].
  intros p' db'. rewrite Hrun. discriminate.
Qed.

(** ** The category store *)

Lemma update_category_pending (db : DB) (k : UUID) (category : CategoryCreate.t) :
  with_categories
    (rewritten Category.id k
       (Category.set_description (CategoryCreate.description category)))
    (with_categories
       (rewritten Category.id k (Category.set_name (CategoryCreate.name category)))
       db)
  = with_categories (rewritten Category.id k (renamed category)) db.
Proof.
  unfold with_categories. cbn [users categories products inventory_transactions].
  f_equal. rewrite (rewritten_compose Category.id) by (intros; reflexivity).
  apply rewritten_ext. intros r. reflexivity.
Qed.

(** The whole effect of [update_category]: the flush accepts every update of
    a category. *)
Lemma update_category_run (db : DB) (category_id : UUID) (category : CategoryCreate.t) :
  run_request (update_category category_id category) db
  = match find_category db category_id with
    | Some c =>
        (inr (renamed category c),
         with_categories (rewritten Category.id category_id (renamed category)) db)
    | None => (inl (ValueError "Category not found"), db)
    end.
Proof.
  unfold run_request, update_category, bind, find_category.
  rewrite Query_first_filter. cbn [pending].
  destruct (head (List.filter _ (categories db))) as [c|] eqn:Hc; [|reflexivity].
  pose proof (head_filter_pk _ _ _ _ Hc) as Hid. subst category_id.
  unfold setattr, bind, modify_pending, ret.
  cbn [pending committed Category.id Category.set_name Category.set_description].
  rewrite update_category_pending, db_commit_run. cbn [pending committed].
  rewrite (flush_rewritten_categories db (Category.id c) (renamed category)
             (λ _, eq_refl)).
  unfold db_refresh.
  cbn [pending with_categories categories Category.id Category.set_name
       Category.set_description].
  rewrite (head_filter_rewritten Category.id (Category.id c) (renamed category) _ _
             (λ _, eq_refl) Hc).
  reflexivity.
Qed.

(** The whole effect of [delete_category]. *)
Lemma delete_category_run (db : DB) (category_id : UUID) :
  run_request (delete_category category_id) db
  = match find_category db category_id with
    | Some c =>
        let db' :=
          with_categories
            (List.filter (λ r, negb (String.eqb (Category.id r) category_id))) db in
        match flush_error db db' with
        | None => (inr c, db')
        | Some e => (inl e, db)
        end
    | None => (inl (ValueError "Category not found"), db)
    end.
Proof.
  unfold run_request, delete_category, bind, find_category.
  rewrite Query_first_filter. cbn [pending].
  destruct (head (List.filter _ (categories db))) as [c|] eqn:Hc; [|reflexivity].
  pose proof (head_filter_pk _ _ _ _ Hc) as Hid. subst category_id.
  unfold db_delete, modify_pending. rewrite db_commit_run.
  cbn [pending committed]. cbv zeta.
  destruct (flush_error db _); reflexivity.
Qed.

(** ** The access-control gate *)

Section Gate.
Context `{E : Env}.

(** The dependency reads the store and leaves the session as it found it;
    when it fails, it fails with status 401. *)
Lemma Depends_get_current_user_session (now : datetime) (request : Request)
    (s : Session) :
  snd (Depends_get_current_user now request s) = s
  ∧ ∀ e, fst (Depends_get_current_user now request s) = inl e →
         ∃ detail headers, e = HTTPException 401 detail headers.
Proof.
  unfold Depends_get_current_user, oauth2_scheme, get_current_user, bind, raise, ret,
    credentials_exception.
  destruct (bearer request) as [token|]; simpl; [|split; [reflexivity|]; intros e [= <-]; eauto].
  destruct (jwt_decode now token SECRET_KEY [ALGORITHM]) as [payload|]; simpl;
    [|split; [reflexivity|]; intros e [= <-]; eauto].
  destruct (payload !! "sub") as [email|]; simpl;
    [|split; [reflexivity|]; intros e [= <-]; eauto].
  unfold Query_first; simpl.
  destruct (head _) as [u|]; simpl; split; try reflexivity; intros e [= <-]; eauto.
Qed.

Lemma Depends_get_current_user_run (now : datetime) (request : Request) (db : DB)
    (r : exn + User.t) :
  fst (run_request (Depends_get_current_user now request) db) = r →
  Depends_get_current_user now request (mkSession db db) = (r, mkSession db db).
Proof.
  unfold run_request. intros Hr.
  pose proof (proj1 (Depends_get_current_user_session now request (mkSession db db)))
    as Hs.
  destruct (Depends_get_current_user now request (mkSession db db)) as [r' s'].
  simpl in *. congruence.
Qed.

Lemma update_category_found (category_id : UUID) (category : CategoryCreate.t)
    (db : DB) (c : Category.t) :
  find_category db category_id = Some c →
  ∃ db',
    run_request (update_existing_category category_id category) db
    = (inr (Category.mk (Category.id c) (CategoryCreate.name category)
              (CategoryCreate.description category)), db')
    ∧ find_category db' category_id
      = Some (Category.mk (Category.id c) (CategoryCreate.name category)
                (CategoryCreate.description category)).
Proof.
  intros Hc. pose proof (update_category_run db category_id category) as Hrun.
  rewrite Hc in Hrun. unfold run_request in Hrun.
  destruct (update_category category_id category (mkSession db db)) as [r s] eqn:Hm.
  injection Hrun as -> Hs.
  eexists. split.
  - unfold run_request, update_existing_category.
    rewrite (try_except_ValueError_ret _ _ _ _ _ Hm), Hs. reflexivity.
  - unfold find_category in *. cbn [with_categories categories].
    exact (head_filter_rewritten Category.id category_id (renamed category) _ _
             (λ _, eq_refl) Hc).
Qed.

(** Deleting a category that no product refers to. *)
Lemma delete_category_found (category_id : UUID) (db : DB) (c : Category.t) :
  find_category db category_id = Some c →
  products_of db category_id = [] →
  ∃ db',
    run_request (delete_existing_category category_id) db = (inr c, db')
    ∧ find_category db' category_id = None.
Proof.
  intros Hc Hnone. pose proof (delete_category_run db category_id) as Hrun.
  rewrite Hc in Hrun. cbv zeta in Hrun.
  rewrite (flush_deleted_category db category_id Hnone) in Hrun.
  unfold run_request in Hrun.
  destruct (delete_category category_id (mkSession db db)) as [r s] eqn:Hm.
  injection Hrun as -> Hs.
  eexists. split.
  - unfold run_request, delete_existing_category.
    rewrite (try_except_ValueError_ret _ _ _ _ _ Hm), Hs. reflexivity.
  - apply head_filter_deleted.
Qed.

(** Deleting a category that a product refers to: the foreign key of the
    products table refuses it, and the endpoint does not catch the
    exception. *)
Lemma delete_category_run_referenced (category_id : UUID) (db : DB) (c : Category.t) :
  find_category db category_id = Some c →
  products_of db category_id ≠ [] →
  ∃ msg,
    run_request (delete_category category_id) db = (inl (IntegrityError msg), db)
    ∧ run_request (delete_existing_category category_id) db
      = (inl (IntegrityError msg), db).
Proof.
  intros Hc Hsome. pose proof (delete_category_run db category_id) as Hrun.
  rewrite Hc in Hrun. cbv zeta in Hrun.
  rewrite (flush_deleted_category_referenced db category_id) in Hrun;
    [|apply head_filter_key; unfold find_category in Hc; congruence | exact Hsome].
  eexists. split; [exact Hrun|].
  unfold run_request in *.
  destruct (delete_category category_id (mkSession db db)) as [r s] eqn:Hm.
  injection Hrun as -> Hs.
  unfold delete_existing_category.
  rewrite (try_except_ValueError_IntegrityError _ _ _ _ _ Hm), Hs. reflexivity.
Qed.

(** C6: the product create, update and delete endpoints and the transaction
    create endpoint first resolve the bearer credential of the request to a
    user.  When that fails, the failure has status 401, it is the outcome of
    the endpoint and the store is as before.  When it succeeds, the endpoint
    runs its service on behalf of that user.  The category update and delete
    endpoints take no credential: whatever the request carries, they run
    their service.  A category that exists is updated; it is deleted when no
    product refers to it, and when one does, the delete is refused by the
    foreign key of the products table, with an integrity error and not a
    401, and the store is as before. *)
Theorem mutating_endpoints_gate (now : datetime) (request : Request) (db : DB) :
  (∀ e, fst (run_request (Depends_get_current_user now request) db) = inl e →
        (∃ detail headers, e = HTTPException 401 detail headers)
        ∧ (∀ product,
              run_request (create_new_product now request product) db = (inl e, db))
        ∧ (∀ product_id product,
              run_request (update_existing_product now request product_id product) db
              = (inl e, db))
        ∧ (∀ product_id,
              run_request (delete_existing_product now request product_id) db
              = (inl e, db))
        ∧ (∀ product_id transaction,
              run_request (create_transaction now request product_id transaction) db
              = (inl e, db)))
  ∧ (∀ u, fst (run_request (Depends_get_current_user now request) db) = inr u →
        (∀ product,
            run_request (create_new_product now request product) db
            = run_request
                (try_except_ValueError
                   (new_product <- create_product product (User.id u);;
                    ret new_product)
                   (λ e, raise (HTTPException 400 e []))) db)
        ∧ (∀ product_id product,
              run_request (update_existing_product now request product_id product) db
              = run_request
                  (try_except_ValueError
                     (updated_product <- update_product product_id product;;
                      ret updated_product)
                     (λ e, raise (HTTPException 404 e []))) db)
        ∧ (∀ product_id,
              run_request (delete_existing_product now request product_id) db
              = run_request
                  (try_except_ValueError
                     (deleted_product <- delete_product product_id;;
                      ret deleted_product)
                     (λ e, raise (HTTPException 404 e []))) db)
        ∧ (∀ product_id transaction,
              run_request (create_transaction now request product_id transaction) db
              = run_request
                  (try_except_ValueError
                     (new_transaction <-
                        create_inventory_transaction product_id transaction (User.id u);;
                      ret new_transaction)
                     (λ e, raise (HTTPException 400 e []))) db))
  ∧ (∀ category_id category c,
        find_category db category_id = Some c →
        ∃ db',
          run_request (update_existing_category category_id category) db
          = (inr (Category.mk (Category.id c) (CategoryCreate.name category)
                    (CategoryCreate.description category)), db')
          ∧ find_category db' category_id
            = Some (Category.mk (Category.id c) (CategoryCreate.name category)
                      (CategoryCreate.description category)))
  ∧ (∀ category_id c,
        find_category db category_id = Some c →
        (products_of db category_id = [] →
         ∃ db',
           run_request (delete_existing_category category_id) db = (inr c, db')
           ∧ find_category db' category_id = None)
        ∧ (products_of db category_id ≠ [] →
           ∃ msg,
             run_request (delete_existing_category category_id) db
             = (inl (IntegrityError msg), db))).
Proof.
  split; [|split; [|split]].
  - intros e He. apply Depends_get_current_user_run in He.
    split.
    { apply (proj2 (Depends_get_current_user_session now request (mkSession db db))).
      rewrite He. reflexivity. }
    repeat split; intros; unfold run_request;
      [unfold create_new_product | unfold update_existing_product
      | unfold delete_existing_product | unfold create_transaction];
      rewrite (bind_raise _ _ _ _ _ He); reflexivity.
  - intros u Hu. apply Depends_get_current_user_run in Hu.
    repeat split; intros; unfold run_request;
      [unfold create_new_product | unfold update_existing_product
      | unfold delete_existing_product | unfold create_transaction];
      rewrite (bind_ret _ _ _ _ _ Hu); reflexivity.
  - intros category_id category c Hc. now apply update_category_found.
  - intros category_id c Hc. split.
    + intros Hnone. now apply delete_category_found.
    + intros Hsome.
      destruct (delete_category_run_referenced category_id db c Hc Hsome)
        as (msg & _ & Hrun).
      eauto.
Qed.

End Gate.

Lemma mutating_endpoints_gate_witness :
  let anonymous := mkRequest None in
  let not_authenticated :=
    HTTPException 401 "Not authenticated" [("WWW-Authenticate", "Bearer")] in
  run_request (create_transaction (E := Demo.env) 0 anonymous "p1" (Demo.entry 3))
    Demo.db
  = (inl not_authenticated, Demo.db)
  ∧ run_request
      (delete_existing_product (E := Demo.env) 0 (mkRequest (Some "a@x.com")) "p1")
      Demo.db
    = (inr Demo.hammer, mkDB [Demo.alice] [Demo.tools] [] [])
  ∧ (∃ db',
        run_request
          (update_existing_category "c1" (CategoryCreate.mk "Hand tools" None))
          Fixture.db3
        = (inr (Category.mk "c1" "Hand tools" None), db')
        ∧ find_category db' "c1" = Some (Category.mk "c1" "Hand tools" None))
  ∧ (∃ db',
        run_request (delete_existing_category "c2") Fixture.db3
        = (inr Fixture.spare, db')
        ∧ find_category db' "c2" = None)
  ∧ (∃ msg,
        run_request (delete_existing_category "c1") Fixture.db3
        = (inl (IntegrityError msg), Fixture.db3)).
Proof.
  intros anonymous not_authenticated.
  pose proof (mutating_endpoints_gate (E := Demo.env) 0 anonymous Demo.db)
    as [Hfail _].
  pose proof (mutating_endpoints_gate (E := Demo.env) 0 (mkRequest (Some "a@x.com"))
                Demo.db) as [_ [Hrun _]].
  pose proof (mutating_endpoints_gate (E := Demo.env) 0 anonymous Fixture.db3)
    as [_ [_ [Hupdate Hdelete]]].
  split; [|split; [|split; [|split]]].
  - apply (Hfail not_authenticated); reflexivity.
  - destruct (Hrun Demo.alice eq_refl) as [_ [_ [Hdel _]]].
    rewrite Hdel. vm_compute. reflexivity.
  - apply (Hupdate "c1" (CategoryCreate.mk "Hand tools" None) Demo.tools).
    reflexivity.
  - apply (proj1 (Hdelete "c2" Fixture.spare eq_refl)). reflexivity.
  - apply (proj2 (Hdelete "c1" Demo.tools eq_refl)). discriminate.
Defined.

(** ** The identity store *)

Lemma head_filter_unique {A} (key : A → string) (k : string) (l : list A) (u : A) :
  List.NoDup (map key l) → In u l → key u = k →
  head (List.filter (λ r, String.eqb (key r) k) l) = Some u.
Proof.
  intros Hnd Hin <-. induction l as [|r l IH]; [contradiction|].
  simpl in *. inversion Hnd as [|x xs Hnotin Hnd']; subst.
  destruct Hin as [->|Hin].
  - rewrite String.eqb_refl. reflexivity.
  - destruct (String.eqb (key r) (key u)) eqn:Hk.
    + apply String.eqb_eq in Hk. exfalso. apply Hnotin. rewrite Hk.
      apply List.in_map. exact Hin.
    + apply IH; assumption.
Qed.

Lemma head_filter_absent {A} (key : A → string) (k : string) (l : list A) :
  (∀ u, In u l → key u ≠ k) →
  head (List.filter (λ r, String.eqb (key r) k) l) = None.
Proof.
  intros Hl. induction l as [|r l IH]; [reflexivity|]. simpl.
  assert (String.eqb (key r) k = false) as ->
    by (apply String.eqb_neq, Hl; left; reflexivity).
  apply IH. intros u Hu. apply Hl. right. exact Hu.
Qed.

Section Identity.
Context `{E : Env}.

Lemma authenticate_user_run (email password : string) (s : Session) :
  authenticate_user email password s
  = (inr match head (List.filter (λ u, String.eqb (User.email u) email)
                       (users (pending s))) with
         | Some u => if verify_password password (User.password u) then Some u else None
         | None => None
         end, s).
Proof.
  unfold authenticate_user, bind. rewrite Query_first_filter.
  destruct (head _) as [u|]; [|reflexivity].
  destruct (verify_password password (User.password u)); reflexivity.
Qed.

(** C7: in a store whose users have distinct emails, [authenticate_user]
    returns a user exactly when that user is stored under the email and the
    password verifies against the stored hash.  When no user has the email,
    and when the user with the email has a hash the password does not verify
    against, it returns nothing and the login endpoint raises one and the
    same exception: status 401, "Incorrect email or password". *)
Theorem authenticate_user_iff (db : DB) (now : datetime) (email password : string) :
  List.NoDup (map User.email (users db)) →
  (∀ u, run_request (authenticate_user email password) db = (inr (Some u), db)
        ↔ In u (users db) ∧ User.email u = email
          ∧ verify_password password (User.password u) = true)
  ∧ ((∀ u, In u (users db) → User.email u ≠ email) →
     run_request (authenticate_user email password) db = (inr None, db)
     ∧ run_request (login_for_access_token now email password) db
       = (inl incorrect_email_or_password, db))
  ∧ (∀ u, In u (users db) → User.email u = email →
          verify_password password (User.password u) = false →
     run_request (authenticate_user email password) db = (inr None, db)
     ∧ run_request (login_for_access_token now email password) db
       = (inl incorrect_email_or_password, db)).
Proof.
  intros Hnd. unfold run_request, login_for_access_token, bind.
  rewrite authenticate_user_run. cbn [pending committed].
  split; [|split].
  - intros u. split.
    + destruct (head _) as [u'|] eqn:Hh; [|discriminate].
      destruct (verify_password password (User.password u')) eqn:Hv; [|discriminate].
      intros [= ->]. apply head_filter_In in Hh as [Hin Hem].
      apply String.eqb_eq in Hem. auto.
    + intros (Hin & Hem & Hv).
      rewrite (head_filter_unique User.email email _ u Hnd Hin Hem), Hv. reflexivity.
  - intros Hnone. rewrite (head_filter_absent User.email email _ Hnone).
    split; reflexivity.
  - intros u Hin Hem Hv.
    rewrite (head_filter_unique User.email email _ u Hnd Hin Hem), Hv.
    split; reflexivity.
Qed.

(** C8: the token that a successful login returns is the encoding, under the
    secret key, of the payload whose subject is the email of the user and
    whose expiry is the issuing time plus 30 minutes (1800000000
    microseconds).  Without an expiry duration, [create_access_token] encodes
    the data with the expiry set to the issuing time plus 15 minutes
    (900000000 microseconds); with a duration that is not zero, with the
    expiry set to the issuing time plus that duration. *)
Theorem access_token_expiry (now : datetime) :
  (∀ (db : DB) (username password : string) (u : User.t),
      run_request (authenticate_user username password) db = (inr (Some u), db) →
      run_request (login_for_access_token now username password) db
      = (inr (<["token_type" := "bearer"]>
                {[ "access_token" :=
                     jwt_encode
                       (<["exp" := VDatetime (now + 1800000000)]>
                          {[ "sub" := VStr (User.email u) ]})
                       SECRET_KEY ALGORITHM ]}),
         db))
  ∧ (∀ data : gmap string Value,
        create_access_token now data None
        = jwt_encode (<["exp" := VDatetime (now + 900000000)]> data)
            SECRET_KEY ALGORITHM)
  ∧ (∀ (data : gmap string Value) (d : timedelta),
        d ≠ 0 →
        create_access_token now data (Some d)
        = jwt_encode (<["exp" := VDatetime (now + d)]> data) SECRET_KEY ALGORITHM).
Proof.
  split; [|split].
  - intros db username password u. unfold run_request, login_for_access_token, bind.
    destruct (authenticate_user username password (mkSession db db)) as [r s'].
    intros [= -> Hs']. unfold ret. rewrite Hs'. reflexivity.
  - intros data. reflexivity.
  - intros data d Hd. unfold create_access_token, to_encode, timedelta_bool.
    destruct (Z.eqb_spec d 0); [contradiction|reflexivity].
Qed.

End Identity.

Lemma authenticate_user_iff_witness :
  run_request (authenticate_user (E := Demo.env) "a@x.com" "pw1") Demo.db
  = (inr (Some Demo.alice), Demo.db)
  ∧ run_request (login_for_access_token (E := Demo.env) 0 "b@x.com" "pw1") Demo.db
    = (inl incorrect_email_or_password, Demo.db)
  ∧ run_request (login_for_access_token (E := Demo.env) 0 "a@x.com" "bad") Demo.db
    = (inl incorrect_email_or_password, Demo.db).
Proof.
  assert (List.NoDup (map User.email (users Demo.db))) as Hnd
    by (repeat constructor; intros []).
  split; [|split].
  - apply (proj1 (authenticate_user_iff (E := Demo.env) Demo.db 0 "a@x.com" "pw1" Hnd)
             Demo.alice).
    split; [left; reflexivity | split; reflexivity].
  - apply (proj1 (proj2 (authenticate_user_iff (E := Demo.env) Demo.db 0
                           "b@x.com" "pw1" Hnd))).
    intros u [<-|[]]. discriminate.
  - apply (proj2 (proj2 (authenticate_user_iff (E := Demo.env) Demo.db 0
                           "a@x.com" "bad" Hnd)) Demo.alice);
      [left; reflexivity | reflexivity | reflexivity].
Defined.

Lemma access_token_expiry_witness :
  run_request (login_for_access_token (E := Demo.env) 1000000 "a@x.com" "pw1") Demo.db
  = (inr (<["token_type" := "bearer"]> {[ "access_token" := "a@x.com" ]}), Demo.db)
  ∧ create_access_token (E := Demo.env) 1000000 {[ "sub" := VStr "a@x.com" ]}
      (Some 60000000)
    = Demo.encode
        (<["exp" := VDatetime 61000000]> {[ "sub" := VStr "a@x.com" ]})
        "secret" "HS256".
Proof.
  split.
  - apply (proj1 (access_token_expiry (E := Demo.env) 1000000)
             Demo.db "a@x.com" "pw1" Demo.alice).
    reflexivity.
  - apply (proj2 (proj2 (access_token_expiry (E := Demo.env) 1000000))
             {[ "sub" := VStr "a@x.com" ]} 60000000).
    lia.
Defined.

(** A duration of zero is false as a condition, so it counts as no duration:
    the expiry is the issuing time plus 15 minutes. *)
Remark create_access_token_zero_duration `{E : Env} (now : datetime)
    (data : gmap string Value) :
  create_access_token now data (Some 0) = create_access_token now data None.
Proof. reflexivity. Qed.

(** ** Reading one movement of the ledger *)

Lemma read_transaction_returns_query (product_id transaction_id : UUID) (s : Session) :
  read_transaction product_id transaction_id s
  = (inr (Query_filter (db_query inventory_transactions)
            (λ t, String.eqb (InventoryTransaction.product_id t) product_id
                  && String.eqb (InventoryTransaction.id t) transaction_id)), s).
Proof. reflexivity. Qed.

(** C5: the endpoint never answers "not found".  With an empty ledger, asking
    for movement [t9] of product [p1] returns a query object, one that
    denotes no row, instead of raising status 404.  With movement [t1] in
    the ledger, asking for it returns the query object that denotes it, not
    the movement. *)
Example read_transaction_never_not_found :
  (∃ q, run_request (read_transaction "p1" "t9") Demo.db = (inr q, Demo.db)
        ∧ fst (Query_first q (mkSession Demo.db Demo.db)) = inr None)
  ∧ (∃ q, run_request (read_transaction "p1" "t1") Demo.db_with_movement
          = (inr q, Demo.db_with_movement)
          ∧ fst (Query_first q (mkSession Demo.db_with_movement Demo.db_with_movement))
            = inr (Some Demo.movement)).
Proof. split; eexists; split; reflexivity. Qed.

Lemma update_product_replaces_fields_witness :
  (∃ p' db',
      run_request (update_product "p1" Fixture.mallet) Fixture.db3 = (inr p', db')
      ∧ Product.name p' = "Mallet"
      ∧ Product.stock_quantity p' = 7
      ∧ Product.category_id p' = "c1"
      ∧ Product.id p' = "p1"
      ∧ Product.user_id p' = "u1"
      ∧ find_product db' "p1" = Some p')
  ∧ (∃ msg,
        run_request
          (update_product "p1"
             (ProductCreate.mk "Mallet" None 12%float 7 None "no-such-category" "u1"))
          Fixture.db3
        = (inl (IntegrityError msg), Fixture.db3))
  ∧ (∃ msg,
        run_request
          (update_product "p1"
             (ProductCreate.mk "Mallet" None 12%float 2147483648 None "c1" "u1"))
          Fixture.db3
        = (inl (DataError msg), Fixture.db3))
  ∧ run_request (update_product "p9" Fixture.mallet) Fixture.db3
    = (inl (ValueError "Product not found"), Fixture.db3).
Proof.
  assert (products_have_categories Fixture.db3) as Hcats
    by (intros p [<-|[<-|[<-|[]]]]; discriminate).
  assert (stocks_fit Fixture.db3) as Hfits
    by (intros p [<-|[<-|[<-|[]]]]; unfold fits_integer; cbn; lia).
  split; [|split; [|split]].
  - destruct (proj1 (proj2 (update_product_replaces_fields Fixture.db3 "p1"
                              Fixture.mallet Hcats Hfits) Demo.hammer eq_refl)
                ltac:(unfold fits_integer; cbn; lia) Demo.tools eq_refl)
      as (p' & db' & Hrun & Hname & _ & _ & Hstock & _ & Hcat & Hid & Huser & Hfind).
    exists p', db'. repeat split; assumption.
  - apply (proj1 (proj2 (proj2 (update_product_replaces_fields Fixture.db3 "p1"
                                  (ProductCreate.mk "Mallet" None 12%float 7 None
                                     "no-such-category" "u1") Hcats Hfits)
                           Demo.hammer eq_refl)));
      [unfold fits_integer; cbn; lia | reflexivity].
  - apply (proj2 (proj2 (proj2 (update_product_replaces_fields Fixture.db3 "p1"
                                  (ProductCreate.mk "Mallet" None 12%float 2147483648
                                     None "c1" "u1") Hcats Hfits)
                           Demo.hammer eq_refl))).
    unfold fits_integer. cbn. lia.
  - apply (proj1 (update_product_replaces_fields Fixture.db3 "p9" Fixture.mallet
                    Hcats Hfits)).
    reflexivity.
Defined.

(** * Further properties *)

(** ** The product store, continued *)

Section ProductStoreMore.
Context `{E : Env}.

(** The store that [create_product] leaves: the store as it was, or the
    store with the new row. *)
Lemma create_product_store (db : DB) (product : ProductCreate.t) (user_id : UUID) :
  snd (run_request (create_product product user_id) db) = db
  ∨ snd (run_request (create_product product user_id) db)
    = with_products (λ rows, rows ++ [created product user_id]) db.
Proof.
  rewrite create_product_run.
  destruct (find_category db _); [|left; reflexivity]. cbv zeta.
  destruct (flush_error db _); [left | right]; reflexivity.
Qed.

(** X1: [create_product] with a category_id that denotes no category raises
    "Category not found" and leaves the store as it was: no row is added. *)
Theorem create_product_unknown_category
    (db : DB) (product : ProductCreate.t) (user_id : UUID) :
  find_category db (ProductCreate.category_id product) = None →
  run_request (create_product product user_id) db
  = (inl (ValueError "Category not found"), db).
Proof.
  intros Hc. unfold run_request, create_product, bind.
  rewrite Query_first_filter. cbn [pending].
  unfold find_category in Hc. rewrite Hc. reflexivity.
Qed.

(** X2: when the category exists, the owner is a stored user, the stock
    fits the integer column and no product carries the default identifier,
    [create_product] returns a product with the fields of the payload, owned
    by the [user_id] argument; the products table then holds that product
    and the products it held, the other tables are as before, and
    [get_product] on its identifier returns it. *)
Theorem create_product_round_trip
    (db : DB) (product : ProductCreate.t) (user_id : UUID) (c : Category.t)
    (u : User.t) :
  find_category db (ProductCreate.category_id product) = Some c →
  In u (users db) → User.id u = user_id →
  fits_integer (ProductCreate.stock_quantity product) →
  find_product db Product_id_default = None →
  ∃ p db',
    run_request (create_product product user_id) db = (inr p, db')
    ∧ Product.name p = ProductCreate.name product
    ∧ Product.description p = ProductCreate.description product
    ∧ Product.price p = ProductCreate.price product
    ∧ Product.stock_quantity p = ProductCreate.stock_quantity product
    ∧ Product.image_url p = ProductCreate.image_url product
    ∧ Product.category_id p = ProductCreate.category_id product
    ∧ Product.user_id p = user_id
    ∧ products db' ≡ₚ p :: products db
    ∧ users db' = users db
    ∧ categories db' = categories db
    ∧ inventory_transactions db' = inventory_transactions db
    ∧ run_request (get_product (Product.id p)) db' = (inr (Some p), db').
Proof.
  intros Hc Hu Hid Hfit Hfree. rewrite create_product_run, Hc. cbv zeta.
  rewrite (flush_added_product db (created product user_id)).
  - do 2 eexists. split; [reflexivity|].
    repeat (split; [reflexivity|]).
    split; [cbn [with_products products]; symmetry; apply Permutation_cons_append|].
    repeat (split; [reflexivity|]).
    unfold run_request. rewrite get_product_find. cbn [pending committed].
    f_equal. f_equal. unfold find_product.
    cbn [with_products products created Product.id].
    apply head_filter_app_new; [exact Hfree | apply String.eqb_refl].
  - intros Hthere. apply head_filter_key in Hthere. exact (Hthere Hfree).
  - exact Hfit.
  - apply head_filter_key. unfold find_category in Hc. cbn. congruence.
  - apply elem_of_map. eauto.
Qed.

(** X3: [update_product] touches nothing but the six fields of the rows
    with the given identifier, whether the commit is accepted or refused:
    users, categories and ledger are as before, the products table holds as
    many rows as before under the same identifiers with the same owners, and
    a product with another identifier is found unchanged. *)
Theorem update_product_frame
    (db : DB) (product_id : UUID) (product : ProductCreate.t) :
  let db' := snd (run_request (update_product product_id product) db) in
  users db' = users db
  ∧ categories db' = categories db
  ∧ inventory_transactions db' = inventory_transactions db
  ∧ map (λ p, (Product.id p, Product.user_id p)) (products db')
    ≡ₚ map (λ p, (Product.id p, Product.user_id p)) (products db)
  ∧ ∀ q, q ≠ product_id → find_product db' q = find_product db q.
Proof.
  cbn zeta. rewrite update_product_run.
  destruct (find_product db product_id) as [p|]; cbn [snd];
    [|repeat split; reflexivity].
  cbv zeta. destruct (flush_error db _); cbn [snd]; [repeat split; reflexivity|].
  repeat (split; [reflexivity|]).
  split.
  - cbn [with_products products].
    rewrite (Permutation_map _
               (rewritten_Permutation Product.id product_id (updated product)
                  (products db))).
    rewrite List.map_map. erewrite List.map_ext; [reflexivity|].
    intros r. cbn. destruct (String.eqb (Product.id r) product_id); reflexivity.
  - intros q Hq. unfold find_product. cbn [with_products products].
    apply (head_filter_rewritten_other Product.id product_id q (updated product));
      [reflexivity | congruence].
Qed.

(** X4: the last update wins.  Updating a product with one payload and then
    with another that the engine accepts (its category exists and its stock
    fits the integer column) gives the result and the store of the second
    update alone, whether or not the first was accepted. *)
Theorem update_product_last_write_wins
    (db : DB) (product_id : UUID) (first second : ProductCreate.t) (c : Category.t) :
  find_category db (ProductCreate.category_id second) = Some c →
  fits_integer (ProductCreate.stock_quantity second) →
  run_request (update_product product_id second)
    (snd (run_request (update_product product_id first) db))
  = run_request (update_product product_id second) db.
Proof.
  intros Hc Hfit.
  assert (∀ d, categories d = categories db →
            flush_error d
              (with_products (rewritten Product.id product_id (updated second)) d)
            = None) as Haccepted.
  { intros d Hd.
    apply (flush_rewritten_products d product_id (updated second)
             (λ _, eq_refl) (λ _, eq_refl)).
    intros r _ _. split; [exact Hfit|]. rewrite Hd.
    apply head_filter_key. unfold find_category in Hc. cbn. congruence. }
  rewrite (update_product_run db product_id first).
  destruct (find_product db product_id) as [p|] eqn:Hp; cbn [snd]; [|reflexivity].
  cbv zeta. destruct (flush_error db _); cbn [snd]; [reflexivity|].
  rewrite !update_product_run. rewrite Hp. cbv zeta.
  rewrite !Haccepted by reflexivity.
  unfold find_product in *. cbn [with_products products].
  rewrite (head_filter_rewritten Product.id product_id (updated first) _ _
             (λ _, eq_refl) Hp).
  f_equal. unfold with_products.
  cbn [users categories products inventory_transactions]. f_equal.
  rewrite (rewritten_compose Product.id) by (intros; reflexivity).
  apply rewritten_ext. intros r. reflexivity.
Qed.

(** X5: [delete_product] on a known identifier that no movement of the
    ledger refers to returns the product and removes it: it is no longer
    found, products with another identifier are found as before, and users,
    categories and the ledger are as before.  When a movement refers to the
    product, the foreign key of the ledger refuses the delete with an
    integrity error and the store is as before. *)
Theorem delete_product_removes_only_product
    (db : DB) (product_id : UUID) (p : Product.t) :
  find_product db product_id = Some p →
  (movements_of db product_id = [] →
   ∃ db',
     run_request (delete_product product_id) db = (inr p, db')
     ∧ find_product db' product_id = None
     ∧ (∀ q, q ≠ product_id → find_product db' q = find_product db q)
     ∧ users db' = users db
     ∧ categories db' = categories db
     ∧ inventory_transactions db' = inventory_transactions db)
  ∧ (movements_of db product_id ≠ [] →
     ∃ msg,
       run_request (delete_product product_id) db = (inl (IntegrityError msg), db)).
Proof.
  intros Hp. rewrite delete_product_run, Hp. cbv zeta. split.
  - intros Hnone. rewrite (flush_deleted_product db product_id Hnone).
    eexists. split; [reflexivity|].
    split; [|split; [|repeat split; reflexivity]].
    + apply head_filter_deleted.
    + intros q Hq. apply head_filter_delete_other. congruence.
  - intros Hsome.
    rewrite (flush_deleted_product_referenced db product_id);
      [eexists; reflexivity | | exact Hsome].
    apply head_filter_key. unfold find_product in Hp. congruence.
Qed.

(** X6: the operations of the product store keep every [stock_quantity]
    non-negative when the payload passed validation: creating and updating
    with a payload that [ProductCreate] accepts, and deleting. *)
Theorem product_store_keeps_stock_nonneg (db : DB) :
  stock_nonneg db →
  (∀ product user_id,
      ProductCreate.validate product = true →
      stock_nonneg (snd (run_request (create_product product user_id) db)))
  ∧ (∀ product_id product,
        ProductCreate.validate product = true →
        stock_nonneg (snd (run_request (update_product product_id product) db)))
  ∧ (∀ product_id,
        stock_nonneg (snd (run_request (delete_product product_id) db))).
Proof.
  unfold stock_nonneg. intros Hdb. split; [|split].
  - intros product user_id Hv.
    destruct (create_product_store db product user_id) as [->| ->]; [exact Hdb|].
    cbn [with_products products]. apply Forall_app. split; [exact Hdb|].
    constructor; [|constructor]. cbn.
    unfold ProductCreate.validate in Hv. apply andb_prop in Hv as [_ Hs]. lia.
  - intros product_id product Hv. rewrite update_product_run.
    destruct (find_product db product_id); [|exact Hdb].
    cbv zeta. destruct (flush_error db _); [exact Hdb|].
    cbn [snd with_products products].
    unfold ProductCreate.validate in Hv. apply andb_prop in Hv as [_ Hs].
    apply List.Forall_forall. intros x Hx.
    apply rewritten_In in Hx as [[Hx _]|(r & Hr & _ & ->)].
    + exact (proj1 (List.Forall_forall _ _) Hdb x Hx).
    + cbn. lia.
  - intros product_id. rewrite delete_product_run.
    destruct (find_product db product_id); [|exact Hdb].
    cbv zeta. destruct (flush_error db _); [exact Hdb|].
    cbn [snd with_products products].
    induction Hdb as [|r rs Hr _ IH]; simpl; [constructor|].
    destruct (negb _); [constructor; assumption | exact IH].
Qed.

End ProductStoreMore.

(** ** The category store, continued *)

Section CategoryStore.
Context `{C : Creation}.

(** The whole effect of [create_category]. *)
Lemma create_category_run (db : DB) (category : CategoryCreate.t) :
  run_request (create_category category) db
  = match find_category_named db (CategoryCreate.name category) with
    | Some _ => (inl (ValueError "Category already exists"), db)
    | None =>
        let db' := with_categories (λ rows, rows ++ [created_category category]) db in
        match flush_error db db' with
        | None => (inr (created_category category), db')
        | Some e => (inl e, db)
        end
    end.
Proof.
  unfold run_request, create_category, bind, find_category_named.
  rewrite Query_first_filter. cbn [pending].
  destruct (head (List.filter _ (categories db))) as [c|]; [reflexivity|].
  rewrite declarative_constructor_accepts
    by (repeat constructor; unfold Category.columns; set_solver).
  unfold db_add, modify_pending. rewrite db_commit_run.
  cbn [pending committed]. cbv zeta.
  fold (created_category category).
  destruct (flush_error db _) eqn:Hflush; [reflexivity|].
  apply flush_added_category_inv in Hflush.
  unfold db_refresh. cbn [pending with_categories categories].
  rewrite (head_filter_app_new _ _ (created_category category)).
  - reflexivity.
  - destruct (head _) eqn:Hh; [|reflexivity]. exfalso. apply Hflush.
    apply head_filter_key. cbn [created_category Category.id] in *. congruence.
  - apply String.eqb_refl.
Qed.

(** The store that [create_category] leaves. *)
Lemma create_category_store (db : DB) (category : CategoryCreate.t) :
  snd (run_request (create_category category) db) = db
  ∨ (find_category_named db (CategoryCreate.name category) = None
     ∧ snd (run_request (create_category category) db)
       = with_categories (λ rows, rows ++ [created_category category]) db).
Proof.
  rewrite create_category_run.
  destruct (find_category_named db _); [left; reflexivity|]. cbv zeta.
  destruct (flush_error db _); [left | right]; auto.
Qed.

(** X7: [create_category] under a name that no category bears, the default
    identifier being free, returns a category with the name and the
    description of the payload and adds it as the last row; a second
    [create_category] under the same name, whatever its description, raises
    "Category already exists" and changes nothing. *)
Theorem create_category_twice (db : DB) (category again : CategoryCreate.t) :
  find_category_named db (CategoryCreate.name category) = None →
  find_category db Category_id_default = None →
  CategoryCreate.name again = CategoryCreate.name category →
  ∃ c db',
    run_request (create_category category) db = (inr c, db')
    ∧ Category.name c = CategoryCreate.name category
    ∧ Category.description c = CategoryCreate.description category
    ∧ categories db' = categories db ++ [c]
    ∧ products db' = products db
    ∧ run_request (create_category again) db'
      = (inl (ValueError "Category already exists"), db').
Proof.
  intros Hfree Hid Hname.
  exists (created_category category),
         (with_categories (λ rows, rows ++ [created_category category]) db).
  split; [|repeat (split; [reflexivity|])].
  - rewrite create_category_run, Hfree. cbv zeta.
    rewrite (flush_added_category db (created_category category)); [reflexivity|].
    intros Hthere. apply head_filter_key in Hthere. exact (Hthere Hid).
  - unfold run_request, create_category, bind.
    rewrite Query_first_filter. cbn [pending with_categories categories].
    unfold find_category_named in Hfree. rewrite Hname.
    rewrite (head_filter_app_new _ _ _ Hfree) by apply String.eqb_refl.
    reflexivity.
Qed.

(** X8: [create_category] keeps the names of the categories distinct. *)
Theorem create_category_keeps_names_distinct (db : DB) (category : CategoryCreate.t) :
  List.NoDup (map Category.name (categories db)) →
  List.NoDup
    (map Category.name (categories (snd (run_request (create_category category) db)))).
Proof.
  intros Hnd.
  destruct (create_category_store db category) as [->|[Hn ->]]; [exact Hnd|].
  cbn [with_categories categories]. rewrite List.map_app. cbn.
  apply NoDup_ListNoDup, NoDup_app. apply NoDup_ListNoDup in Hnd.
  split; [exact Hnd|]. split; [|apply NoDup_singleton].
  intros n Hin Hn'. apply list_elem_of_singleton in Hn'. subst n.
  apply list_elem_of_In, List.in_map_iff in Hin as (r & Hr & Hin).
  unfold find_category_named in Hn.
  assert (In r (List.filter
                  (λ c, String.eqb (Category.name c) (CategoryCreate.name category))
                  (categories db))) as Hf
    by (apply List.filter_In; split; [exact Hin | now apply String.eqb_eq]).
  destruct (List.filter _ (categories db)); [destruct Hf | discriminate].
Qed.

End CategoryStore.

(** X9: [update_category] does not look at the names of the other
    categories.  Giving one category the name of another succeeds and leaves
    two categories with that name. *)
Theorem update_category_can_duplicate_name
    (db : DB) (c other : Category.t) (description : option string) :
  find_category db (Category.id c) = Some c →
  find_category db (Category.id other) = Some other →
  Category.id c ≠ Category.id other →
  ∃ c' db',
    run_request
      (update_category (Category.id c)
         (CategoryCreate.mk (Category.name other) description)) db
    = (inr c', db')
    ∧ find_category db' (Category.id c) = Some c'
    ∧ find_category db' (Category.id other) = Some other
    ∧ Category.name c' = Category.name other.
Proof.
  intros Hc Hother Hne. rewrite update_category_run, Hc.
  do 2 eexists. split; [reflexivity|]. unfold find_category in *.
  cbn [with_categories categories]. split; [|split; [|reflexivity]].
  - exact (head_filter_rewritten Category.id _
             (renamed (CategoryCreate.mk (Category.name other) description)) _ _
             (λ _, eq_refl) Hc).
  - rewrite (head_filter_rewritten_other Category.id (Category.id c)
               (Category.id other)
               (renamed (CategoryCreate.mk (Category.name other) description)))
      by (reflexivity || assumption).
    exact Hother.
Qed.

(** X10: [delete_category] does not look at the products, but the commit
    does.  When a product refers to the category, the foreign key of the
    products table refuses the delete with an integrity error; the endpoint
    does not catch it; the store is as before: product and category are
    still found, and reading the category of the product answers it. *)
Theorem delete_category_referenced_refused
    (db : DB) (category_id product_id : UUID) (c : Category.t) (p : Product.t) :
  find_category db category_id = Some c →
  find_product db product_id = Some p →
  Product.category_id p = category_id →
  ∃ msg,
    run_request (delete_category category_id) db = (inl (IntegrityError msg), db)
    ∧ run_request (delete_existing_category category_id) db
      = (inl (IntegrityError msg), db)
    ∧ run_request (read_category (Product.category_id p)) db = (inr c, db).
Proof.
  intros Hc Hp Hcat.
  assert (products_of db category_id ≠ []) as Hsome.
  { intros Hnone. apply head_filter_In in Hp as [Hin _].
    pose proof (filter_none_inv _ _ p Hnone Hin) as Hneq. cbn in Hneq.
    rewrite Hcat, String.eqb_refl in Hneq. discriminate. }
  destruct (delete_category_run_referenced category_id db c Hc Hsome)
    as (msg & Hservice & Hendpoint).
  exists msg. split; [exact Hservice|]. split; [exact Hendpoint|].
  rewrite Hcat. unfold run_request, read_category, get_category, bind.
  rewrite Query_first_filter. cbn [pending].
  unfold find_category in Hc. rewrite Hc. reflexivity.
Qed.

(** ** Listing with an offset and a limit *)

Lemma rows_window_In {A} (skip limit : nat) (rows : list A) (x : A) :
  In x (take limit (drop skip rows)) → In x rows.
Proof.
  intros Hx.
  rewrite <- (take_drop skip rows). apply List.in_or_app. right.
  rewrite <- (take_drop limit (drop skip rows)). apply List.in_or_app. left.
  exact Hx.
Qed.

Lemma rows_window_length {A} (skip limit : Z) (rows : list A) :
  0 ≤ skip → 0 ≤ limit →
  Z.of_nat (length (take (Z.to_nat limit) (drop (Z.to_nat skip) rows)))
  = Z.min limit (Z.max 0 (Z.of_nat (length rows) - skip)).
Proof. intros Hs Hl. rewrite length_take, length_drop. lia. Qed.

Section Listing.
Context `{C : Creation}.

Lemma Select_all_run {A} (q : Query A) (skip limit : Z) (s : Session) :
  0 ≤ skip → 0 ≤ limit →
  Select_all (Select_limit (Query_offset q skip) limit) s
  = (inr (take (Z.to_nat limit)
            (drop (Z.to_nat skip)
               (List.filter (where_clause q) (from_table q (pending s))))), s).
Proof.
  intros Hs Hl. unfold Select_all, Select_limit, Query_offset, negative. cbn.
  destruct (Z.ltb_spec skip 0); [lia|]. destruct (Z.ltb_spec limit 0); [lia|].
  reflexivity.
Qed.

(** X11: for a non-negative offset and limit, [list_transactions] returns
    rows of the ledger that all belong to the product asked for; their number
    is the limit, or what the product has left after the offset if that is
    less (none when the offset reaches the number it has); and the answer
    does not depend on the products table: the product need not exist. *)
Theorem list_transactions_window
    (db : DB) (product_id : UUID) (skip limit : Z) :
  0 ≤ skip → 0 ≤ limit →
  ∃ rows,
    run_request (list_transactions product_id skip limit) db = (inr rows, db)
    ∧ Z.of_nat (length rows)
      = Z.min limit
          (Z.max 0
             (Z.of_nat
                (length
                   (List.filter
                      (λ t, String.eqb (InventoryTransaction.product_id t) product_id)
                      (inventory_transactions db)))
              - skip))
    ∧ (∀ t, In t rows →
            In t (inventory_transactions db)
            ∧ InventoryTransaction.product_id t = product_id)
    ∧ (∀ f, run_request (list_transactions product_id skip limit) (with_products f db)
            = (inr rows, with_products f db)).
Proof.
  intros Hs Hl. unfold run_request, list_transactions, get_inventory_transactions, bind.
  eexists. rewrite (Select_all_run _ _ _ _ Hs Hl). split; [reflexivity|].
  cbn [Query_filter db_query where_clause from_table pending andb].
  split; [apply rows_window_length; assumption|]. split.
  - intros t Ht. apply rows_window_In, List.filter_In in Ht as [Hin Hp].
    split; [exact Hin | now apply String.eqb_eq].
  - intros f. rewrite (Select_all_run _ _ _ _ Hs Hl). reflexivity.
Qed.

(** X12: for a non-negative offset and limit, [list_products] and
    [list_categories] return rows of their table, as many as the limit, or as
    the table has left after the offset if that is less, and leave the store
    as it was. *)
Theorem list_products_categories_window (db : DB) (skip limit : Z) :
  0 ≤ skip → 0 ≤ limit →
  (∃ rows,
      run_request (list_products skip limit) db = (inr rows, db)
      ∧ Z.of_nat (length rows)
        = Z.min limit (Z.max 0 (Z.of_nat (length (products db)) - skip))
      ∧ ∀ p, In p rows → In p (products db))
  ∧ (∃ rows,
        run_request (list_categories skip limit) db = (inr rows, db)
        ∧ Z.of_nat (length rows)
          = Z.min limit (Z.max 0 (Z.of_nat (length (categories db)) - skip))
        ∧ ∀ c, In c rows → In c (categories db)).
Proof.
  intros Hs Hl. split.
  - unfold run_request, list_products, get_products, bind.
    eexists. rewrite (Select_all_run _ _ _ _ Hs Hl). split; [reflexivity|].
    cbn [db_query where_clause from_table pending].
    assert (List.filter (λ _ : Product.t, true) (products db) = products db) as ->
      by (induction (products db); simpl; congruence).
    split; [apply rows_window_length; assumption|].
    intros p Hp. exact (rows_window_In _ _ _ _ Hp).
  - unfold run_request, list_categories, get_categories, bind.
    eexists. rewrite (Select_all_run _ _ _ _ Hs Hl). split; [reflexivity|].
    cbn [db_query where_clause from_table pending].
    assert (List.filter (λ _ : Category.t, true) (categories db) = categories db) as ->
      by (induction (categories db); simpl; congruence).
    split; [apply rows_window_length; assumption|].
    intros c Hc. exact (rows_window_In _ _ _ _ Hc).
Qed.

End Listing.

(** ** The identity store, continued *)

Section IdentityMore.
Context `{E : Env} `{C : Creation}.

(** The whole effect of [register_user]. *)
Lemma register_user_run (db : DB) (salt : string) (user : UserCreate.t) :
  run_request (register_user salt user) db
  = match find_user db (UserCreate.email user) with
    | Some _ => (inl (HTTPException 400 "Email already registered" []), db)
    | None =>
        let db' := with_users (λ rows, rows ++ [registered salt user]) db in
        match flush_error db db' with
        | None => (inr (registered salt user), db')
        | Some e => (inl e, db)
        end
    end.
Proof.
  unfold run_request, register_user, bind, find_user.
  rewrite Query_first_filter. cbn [pending].
  destruct (head (List.filter _ (users db))) as [u|]; [reflexivity|].
  rewrite declarative_constructor_accepts
    by (repeat constructor; unfold User.columns; set_solver).
  unfold db_add, modify_pending. rewrite db_commit_run.
  cbn [pending committed]. cbv zeta.
  fold (registered salt user).
  destruct (flush_error db _) eqn:Hflush; [reflexivity|].
  apply flush_added_user_inv in Hflush.
  unfold db_refresh. cbn [pending with_users users].
  rewrite (head_filter_app_new _ _ (registered salt user)).
  - reflexivity.
  - destruct (head _) eqn:Hh; [|reflexivity]. exfalso. apply Hflush.
    apply head_filter_key. cbn [registered User.id] in *. congruence.
  - apply String.eqb_refl.
Qed.

(** The store that [register_user] leaves. *)
Lemma register_user_store (db : DB) (salt : string) (user : UserCreate.t) :
  snd (run_request (register_user salt user) db) = db
  ∨ (find_user db (UserCreate.email user) = None
     ∧ snd (run_request (register_user salt user) db)
       = with_users (λ rows, rows ++ [registered salt user]) db).
Proof.
  rewrite register_user_run.
  destruct (find_user db _); [left; reflexivity|]. cbv zeta.
  destruct (flush_error db _); [left | right]; auto.
Qed.

(** Registration stops at the lookup when the email is taken. *)
Lemma register_user_taken_run
    (db : DB) (salt : string) (user : UserCreate.t) (u : User.t) :
  head (List.filter (λ r, String.eqb (User.email r) (UserCreate.email user))
          (users db)) = Some u →
  register_user salt user (mkSession db db)
  = (inl (HTTPException 400 "Email already registered" []), mkSession db db).
Proof.
  intros Hu. unfold register_user, bind.
  rewrite Query_first_filter. cbn [pending]. rewrite Hu. reflexivity.
Qed.

(** X13: [register_user] with an email that a user already has raises
    status 400, "Email already registered", and leaves the store as it
    was. *)
Theorem register_user_email_taken
    (db : DB) (salt : string) (user : UserCreate.t) (u : User.t) :
  find_user db (UserCreate.email user) = Some u →
  run_request (register_user salt user) db
  = (inl (HTTPException 400 "Email already registered" []), db).
Proof.
  intros Hu. unfold run_request.
  rewrite (register_user_taken_run db salt user u); [reflexivity|].
  exact Hu.
Qed.

(** X14: [register_user] keeps the emails of the users distinct. *)
Theorem register_user_keeps_emails_distinct
    (db : DB) (salt : string) (user : UserCreate.t) :
  List.NoDup (map User.email (users db)) →
  List.NoDup
    (map User.email (users (snd (run_request (register_user salt user) db)))).
Proof.
  intros Hnd.
  destruct (register_user_store db salt user) as [->|[Hn ->]]; [exact Hnd|].
  cbn [with_users users]. rewrite List.map_app. cbn.
  apply NoDup_ListNoDup, NoDup_app. apply NoDup_ListNoDup in Hnd.
  split; [exact Hnd|]. split; [|apply NoDup_singleton].
  intros n Hin Hn'. apply list_elem_of_singleton in Hn'. subst n.
  apply list_elem_of_In, List.in_map_iff in Hin as (r & Hr & Hin).
  unfold find_user in Hn.
  assert (In r (List.filter
                  (λ u, String.eqb (User.email u) (UserCreate.email user))
                  (users db))) as Hf
    by (apply List.filter_In; split; [exact Hin | now apply String.eqb_eq]).
  destruct (List.filter _ (users db)); [destruct Hf | discriminate].
Qed.

(** X15: registration and authentication round trip.  Take an email no user
    has, the default identifier being free, and a password whose hash the
    hasher verifies.  [register_user] returns the new user and stores it
    last, with the hash and not the password; [authenticate_user] with the
    same email and password then returns that user; with a password that does
    not verify against the hash it returns nothing; and registering the email
    again raises status 400. *)
Theorem register_then_authenticate
    (db : DB) (salt : string) (user : UserCreate.t) :
  find_user db (UserCreate.email user) = None →
  (∀ u, In u (users db) → User.id u ≠ User_id_default) →
  verify_password (UserCreate.password user)
    (get_password_hash salt (UserCreate.password user)) = true →
  ∃ u db',
    run_request (register_user salt user) db = (inr u, db')
    ∧ User.name u = UserCreate.name user
    ∧ User.email u = UserCreate.email user
    ∧ User.password u = get_password_hash salt (UserCreate.password user)
    ∧ users db' = users db ++ [u]
    ∧ run_request
        (authenticate_user (UserCreate.email user) (UserCreate.password user)) db'
      = (inr (Some u), db')
    ∧ (∀ password,
          verify_password password (User.password u) = false →
          run_request (authenticate_user (UserCreate.email user) password) db'
          = (inr None, db'))
    ∧ (∀ salt' again,
          UserCreate.email again = UserCreate.email user →
          run_request (register_user salt' again) db'
          = (inl (HTTPException 400 "Email already registered" []), db')).
Proof.
  intros Hfree Hid Hv.
  exists (registered salt user),
         (with_users (λ rows, rows ++ [registered salt user]) db).
  assert (find_user (with_users (λ rows, rows ++ [registered salt user]) db)
            (UserCreate.email user) = Some (registered salt user)) as Hfound.
  { unfold find_user in *. cbn [with_users users].
    apply head_filter_app_new; [exact Hfree | apply String.eqb_refl]. }
  split; [|repeat (split; [reflexivity|]); split; [|split]].
  - rewrite register_user_run, Hfree. cbv zeta.
    rewrite (flush_added_user db (registered salt user)); [reflexivity| |].
    + intros Hthere. apply elem_of_map in Hthere as (r & Hr & Heq).
      exact (Hid r Hr Heq).
    + intros Hthere. apply head_filter_key in Hthere. exact (Hthere Hfree).
  - unfold run_request. rewrite authenticate_user_run. cbn [pending committed].
    unfold find_user in Hfound. rewrite Hfound. cbn [registered User.password].
    rewrite Hv. reflexivity.
  - intros password Hbad. unfold run_request. rewrite authenticate_user_run.
    cbn [pending committed]. unfold find_user in Hfound. rewrite Hfound.
    cbn [registered User.password] in *. rewrite Hbad. reflexivity.
  - intros salt' again Hagain. unfold run_request.
    rewrite (register_user_taken_run _ salt' again (registered salt user));
      [reflexivity|].
    rewrite Hagain. exact Hfound.
Qed.

(** X16: a token issued at login resolves back to the user.  If
    [authenticate_user] accepts the credentials as user [u], and the codec
    decodes, at a later time, the token of the login payload to a payload
    whose subject is still the email of [u], then [read_users_me] with the
    token that [login_for_access_token] returned answers [u]. *)
Theorem login_then_current_user
    (db : DB) (now later : datetime) (username password : string) (u : User.t)
    (payload : gmap string Value) :
  run_request (authenticate_user username password) db = (inr (Some u), db) →
  jwt_decode later
    (create_access_token now {[ "sub" := VStr (User.email u) ]}
       (Some (timedelta_minutes 30)))
    SECRET_KEY [ALGORITHM] = Some payload →
  payload !! "sub" = Some (VStr (User.email u)) →
  ∃ token,
    run_request (login_for_access_token now username password) db
    = (inr (<["token_type" := "bearer"]> {[ "access_token" := token ]}), db)
    ∧ run_request (read_users_me later (mkRequest (Some token))) db = (inr u, db).
Proof.
  intros Hauth Hdec Hsub.
  unfold run_request in Hauth. rewrite authenticate_user_run in Hauth.
  cbn [pending committed] in Hauth.
  destruct (head _) as [u'|] eqn:Hhead; [|discriminate].
  destruct (verify_password password (User.password u')) eqn:Hv; [|discriminate].
  injection Hauth as ->.
  pose proof (head_filter_In _ _ _ Hhead) as [_ Hem]. apply String.eqb_eq in Hem.
  eexists. split.
  - unfold run_request, login_for_access_token, bind.
    rewrite authenticate_user_run. cbn [pending committed].
    rewrite Hhead, Hv. reflexivity.
  - unfold run_request, read_users_me, Depends_get_current_user, oauth2_scheme,
      get_current_user, bind, ret. cbn [bearer].
    rewrite Hdec, Hsub.
    unfold Query_first. cbn [Query_filter db_query where_clause from_table pending andb].
    assert (List.filter (λ r, bool_decide (VStr (User.email r) = VStr (User.email u)))
              (users db)
            = List.filter (λ r, String.eqb (User.email r) username) (users db)) as ->.
    { apply List.filter_ext. intros r. rewrite Hem.
      destruct (String.eqb_spec (User.email r) username) as [->|Hne].
      - apply bool_decide_eq_true_2. reflexivity.
      - apply bool_decide_eq_false_2. congruence. }
    rewrite Hhead. reflexivity.
Qed.

(** X17: [get_current_user] has one failure, [credentials_exception], and a
    token only resolves to a stored user whose email is the subject of the
    decoded payload; the store is as before in either case. *)
Theorem get_current_user_outcomes (db : DB) (now : datetime) (token : string) :
  run_request (get_current_user now token) db = (inl credentials_exception, db)
  ∨ ∃ u payload,
      run_request (get_current_user now token) db = (inr u, db)
      ∧ In u (users db)
      ∧ jwt_decode now token SECRET_KEY [ALGORITHM] = Some payload
      ∧ payload !! "sub" = Some (VStr (User.email u)).
Proof.
  unfold run_request, get_current_user, bind, raise, ret.
  destruct (jwt_decode now token SECRET_KEY [ALGORITHM]) as [payload|];
    [|left; reflexivity].
  destruct (payload !! "sub") as [email|] eqn:Hsub; [|left; reflexivity].
  unfold Query_first. cbn [Query_filter db_query where_clause from_table pending andb].
  destruct (head _) as [u|] eqn:Hhead; [|left; reflexivity].
  right. exists u, payload. split; [reflexivity|].
  apply head_filter_In in Hhead as [Hin Hem].
  apply bool_decide_eq_true_1 in Hem. subst email. auto.
Qed.

(** X18: the payload that [create_access_token] encodes keeps every entry of
    the data except "exp", always has an "exp" entry, whatever the data held
    there, and that expiry is later than the issuing time unless a negative
    duration was given. *)
Theorem to_encode_payload
    (now : datetime) (data : gmap string Value) (expires_delta : option timedelta) :
  (∀ k, k ≠ "exp" → to_encode now data expires_delta !! k = data !! k)
  ∧ ∃ t, to_encode now data expires_delta !! "exp" = Some (VDatetime t)
         ∧ (match expires_delta with Some d => 0 ≤ d | None => True end → now < t).
Proof.
  unfold to_encode. split.
  - intros k Hk. apply lookup_insert_ne. congruence.
  - eexists. split; [apply lookup_insert_eq|].
    unfold timedelta_bool, timedelta_minutes.
    destruct expires_delta as [d|]; [|lia].
    destruct (Z.eqb_spec d 0); cbn; lia.
Qed.

End IdentityMore.

(** ** The endpoints, continued *)

Section Endpoints.
Context `{E : Env} `{C : Creation}.

(** The dependency looks at the users table only. *)
Lemma Depends_get_current_user_users (now : datetime) (request : Request)
    (db db' : DB) :
  users db' = users db →
  fst (run_request (Depends_get_current_user now request) db')
  = fst (run_request (Depends_get_current_user now request) db).
Proof.
  intros Hu. unfold run_request, Depends_get_current_user, oauth2_scheme,
    get_current_user, bind, raise, ret.
  destruct (bearer request) as [token|]; [|reflexivity].
  destruct (jwt_decode now token SECRET_KEY [ALGORITHM]) as [payload|]; [|reflexivity].
  destruct (payload !! "sub") as [email|]; [|reflexivity].
  unfold Query_first. cbn [Query_filter db_query where_clause from_table pending].
  rewrite Hu. destruct (head _); reflexivity.
Qed.

(** A credential resolves to a stored user. *)
Lemma Depends_get_current_user_In (now : datetime) (request : Request)
    (db : DB) (u : User.t) :
  fst (run_request (Depends_get_current_user now request) db) = inr u →
  In u (users db).
Proof.
  unfold run_request, Depends_get_current_user, oauth2_scheme,
    get_current_user, bind, raise, ret.
  destruct (bearer request) as [token|]; [|discriminate].
  destruct (jwt_decode now token SECRET_KEY [ALGORITHM]) as [payload|]; [|discriminate].
  destruct (payload !! "sub") as [email|]; [|discriminate].
  unfold Query_first. cbn [Query_filter db_query where_clause from_table pending].
  destruct (head _) as [u'|] eqn:Hhead; [|discriminate].
  cbn. intros [= <-]. apply head_filter_In in Hhead as [Hin _]. exact Hin.
Qed.

(** The three endpoints that address one product answer 404 when it is not
    there. *)
Lemma product_endpoints_not_found
    (db : DB) (now : datetime) (request : Request) (u : User.t) (product_id : UUID) :
  Depends_get_current_user now request (mkSession db db) = (inr u, mkSession db db) →
  find_product db product_id = None →
  run_request (read_product product_id) db
  = (inl (HTTPException 404 "Product not found" []), db)
  ∧ (∀ product,
        run_request (update_existing_product now request product_id product) db
        = (inl (HTTPException 404 "Product not found" []), db))
  ∧ run_request (delete_existing_product now request product_id) db
    = (inl (HTTPException 404 "Product not found" []), db).
Proof.
  intros Hu Hp. unfold find_product in Hp. split; [|split].
  - unfold run_request, read_product, get_product, bind.
    rewrite Query_first_filter. cbn [pending]. rewrite Hp. reflexivity.
  - intros product. unfold run_request, update_existing_product.
    rewrite (bind_ret _ _ _ _ _ Hu).
    unfold try_except_ValueError, update_product, bind.
    rewrite Query_first_filter. cbn [pending]. rewrite Hp. reflexivity.
  - unfold run_request, delete_existing_product.
    rewrite (bind_ret _ _ _ _ _ Hu).
    unfold try_except_ValueError, delete_product, bind.
    rewrite Query_first_filter. cbn [pending]. rewrite Hp. reflexivity.
Qed.

(** X19: what the endpoints answer when the row they need is missing, for a
    request whose credential resolves to a user.  Creating a product in an
    unknown category and recording a movement of an unknown product answer
    400; creating a category under a name that is taken answers 400;
    updating, deleting and reading an unknown product and reading an unknown
    category answer 404.  The store is as before each time. *)
Theorem endpoints_missing_row
    (db : DB) (now : datetime) (request : Request) (u : User.t) :
  fst (run_request (Depends_get_current_user now request) db) = inr u →
  (∀ product,
      find_category db (ProductCreate.category_id product) = None →
      run_request (create_new_product now request product) db
      = (inl (HTTPException 400 "Category not found" []), db))
  ∧ (∀ product_id transaction,
        find_product db product_id = None →
        run_request (create_transaction now request product_id transaction) db
        = (inl (HTTPException 400 "Product not found" []), db))
  ∧ (∀ category c,
        find_category_named db (CategoryCreate.name category) = Some c →
        run_request (create_new_category now request category) db
        = (inl (HTTPException 400 "Category already exists" []), db))
  ∧ (∀ product_id product,
        find_product db product_id = None →
        run_request (update_existing_product now request product_id product) db
        = (inl (HTTPException 404 "Product not found" []), db))
  ∧ (∀ product_id,
        find_product db product_id = None →
        run_request (delete_existing_product now request product_id) db
        = (inl (HTTPException 404 "Product not found" []), db))
  ∧ (∀ product_id,
        find_product db product_id = None →
        run_request (read_product product_id) db
        = (inl (HTTPException 404 "Product not found" []), db))
  ∧ (∀ category_id,
        find_category db category_id = None →
        run_request (read_category category_id) db
        = (inl (HTTPException 404 "Category not found" []), db)).
Proof.
  intros Hu. apply Depends_get_current_user_run in Hu.
  unfold find_category, find_product, find_category_named.
  repeat split.
  - intros product Hc. unfold run_request, create_new_product.
    rewrite (bind_ret _ _ _ _ _ Hu).
    unfold try_except_ValueError, create_product, bind.
    rewrite Query_first_filter. cbn [pending]. rewrite Hc. reflexivity.
  - intros product_id transaction Hp. unfold run_request, create_transaction.
    rewrite (bind_ret _ _ _ _ _ Hu).
    unfold try_except_ValueError, create_inventory_transaction, bind.
    rewrite Query_first_filter. cbn [pending]. rewrite Hp. reflexivity.
  - intros category c Hc. unfold run_request, create_new_category.
    rewrite (bind_ret _ _ _ _ _ Hu).
    unfold try_except_ValueError, create_category, bind.
    rewrite Query_first_filter. cbn [pending]. rewrite Hc. reflexivity.
  - intros product_id product Hp. unfold run_request, update_existing_product.
    rewrite (bind_ret _ _ _ _ _ Hu).
    unfold try_except_ValueError, update_product, bind.
    rewrite Query_first_filter. cbn [pending]. rewrite Hp. reflexivity.
  - intros product_id Hp. unfold run_request, delete_existing_product.
    rewrite (bind_ret _ _ _ _ _ Hu).
    unfold try_except_ValueError, delete_product, bind.
    rewrite Query_first_filter. cbn [pending]. rewrite Hp. reflexivity.
  - intros product_id Hp. unfold run_request, read_product, get_product, bind.
    rewrite Query_first_filter. cbn [pending]. rewrite Hp. reflexivity.
  - intros category_id Hc. unfold run_request, read_category, get_category, bind.
    rewrite Query_first_filter. cbn [pending]. rewrite Hc. reflexivity.
Qed.

(** X20: the owner of a new product is the authenticated caller.  When the
    credential resolves to [u], the category exists and the default
    identifier is free, [create_new_product] with a stock that fits the
    integer column returns and stores a product whose [user_id] is the
    identifier of [u]; the [user_id] field of the payload plays no part.
    With a stock that does not fit, the column refuses the row with a data
    error, whatever the [user_id] field of the payload, and the store is as
    before. *)
Theorem create_new_product_owner
    (db : DB) (now : datetime) (request : Request) (u : User.t)
    (product : ProductCreate.t) (c : Category.t) :
  fst (run_request (Depends_get_current_user now request) db) = inr u →
  find_category db (ProductCreate.category_id product) = Some c →
  find_product db Product_id_default = None →
  (fits_integer (ProductCreate.stock_quantity product) →
   ∃ p db',
     run_request (create_new_product now request product) db = (inr p, db')
     ∧ Product.user_id p = User.id u
     ∧ find_product db' (Product.id p) = Some p
     ∧ ∀ other_user_id,
         run_request
           (create_new_product now request
              (ProductCreate.mk (ProductCreate.name product)
                 (ProductCreate.description product) (ProductCreate.price product)
                 (ProductCreate.stock_quantity product)
                 (ProductCreate.image_url product)
                 (ProductCreate.category_id product) other_user_id)) db
         = (inr p, db'))
  ∧ (¬ fits_integer (ProductCreate.stock_quantity product) →
     ∃ msg, ∀ other_user_id,
       run_request
         (create_new_product now request
            (ProductCreate.mk (ProductCreate.name product)
               (ProductCreate.description product) (ProductCreate.price product)
               (ProductCreate.stock_quantity product)
               (ProductCreate.image_url product)
               (ProductCreate.category_id product) other_user_id)) db
       = (inl (DataError msg), db)).
Proof.
  intros Hu Hc Hfree.
  pose proof (Depends_get_current_user_In now request db u Hu) as Hin.
  apply Depends_get_current_user_run in Hu.
  assert (Product_id_default ∉ map Product.id (products db)) as Hid
    by (intros Hthere; apply head_filter_key in Hthere; exact (Hthere Hfree)).
  pose proof (create_product_run db product (User.id u)) as Hrun.
  rewrite Hc in Hrun. cbv zeta in Hrun. unfold run_request in Hrun.
  destruct (create_product product (User.id u) (mkSession db db)) as [r s] eqn:Hcp.
  assert (∀ other_user_id,
             create_product
               (ProductCreate.mk (ProductCreate.name product)
                  (ProductCreate.description product) (ProductCreate.price product)
                  (ProductCreate.stock_quantity product)
                  (ProductCreate.image_url product)
                  (ProductCreate.category_id product) other_user_id)
               (User.id u) (mkSession db db)
             = (r, s)) as Hother.
  { intros other. rewrite <- Hcp.
    unfold create_product, bind. rewrite !Query_first_filter. reflexivity. }
  split.
  - intros Hfit.
    rewrite (flush_added_product db (created product (User.id u))) in Hrun;
      [|exact Hid | exact Hfit
       |apply head_filter_key; unfold find_category in Hc; cbn; congruence
       |apply elem_of_map; eauto].
    injection Hrun as -> Hs.
    exists (created product (User.id u)),
           (with_products (λ rows, rows ++ [created product (User.id u)]) db).
    split; [|split; [reflexivity|split]].
    + unfold run_request, create_new_product. rewrite (bind_ret _ _ _ _ _ Hu).
      rewrite (try_except_ValueError_ret _ _ _ _ _ Hcp), Hs. reflexivity.
    + unfold find_product in *. cbn [with_products products created Product.id].
      apply head_filter_app_new; [exact Hfree | apply String.eqb_refl].
    + intros other. unfold run_request, create_new_product.
      rewrite (bind_ret _ _ _ _ _ Hu).
      rewrite (try_except_ValueError_ret _ _ _ _ _ (Hother other)), Hs. reflexivity.
  - intros Hbig.
    rewrite (flush_added_product_out_of_range db (created product (User.id u)))
      in Hrun; [|exact Hid | exact Hbig].
    injection Hrun as -> Hs.
    eexists. intros other. unfold run_request, create_new_product.
    rewrite (bind_ret _ _ _ _ _ Hu).
    rewrite (try_except_ValueError_DataError _ _ _ _ _ (Hother other)), Hs.
    reflexivity.
Qed.

(** X21: a deleted product is gone for every endpoint.  After
    [delete_existing_product] answered with the product, as it does for a
    product that no movement of the ledger refers to, reading it, updating it
    and deleting it again answer 404, "Product not found". *)
Theorem delete_then_not_found
    (db : DB) (now : datetime) (request : Request) (u : User.t)
    (product_id : UUID) (p : Product.t) :
  fst (run_request (Depends_get_current_user now request) db) = inr u →
  find_product db product_id = Some p →
  movements_of db product_id = [] →
  ∃ db',
    run_request (delete_existing_product now request product_id) db = (inr p, db')
    ∧ run_request (read_product product_id) db'
      = (inl (HTTPException 404 "Product not found" []), db')
    ∧ (∀ product,
          run_request (update_existing_product now request product_id product) db'
          = (inl (HTTPException 404 "Product not found" []), db'))
    ∧ run_request (delete_existing_product now request product_id) db'
      = (inl (HTTPException 404 "Product not found" []), db').
Proof.
  intros Hu Hp Hnone.
  pose proof (delete_product_run db product_id) as Hdel. rewrite Hp in Hdel.
  cbv zeta in Hdel. rewrite (flush_deleted_product db product_id Hnone) in Hdel.
  set (db' := with_products
                (List.filter (λ r, negb (String.eqb (Product.id r) product_id))) db)
    in *.
  exists db'.
  assert (find_product db' product_id = None) as Hgone
    by apply head_filter_deleted.
  assert (fst (run_request (Depends_get_current_user now request) db') = inr u) as Hu'
    by (rewrite (Depends_get_current_user_users now request db db' eq_refl);
        exact Hu).
  apply Depends_get_current_user_run in Hu, Hu'.
  destruct (product_endpoints_not_found db' now request u product_id Hu' Hgone)
    as (Hread & Hupd & Hdelete).
  split; [|split; [|split]]; auto.
  unfold run_request, delete_existing_product. rewrite (bind_ret _ _ _ _ _ Hu).
  unfold run_request in Hdel.
  destruct (delete_product product_id (mkSession db db)) as [r s] eqn:Hrun.
  injection Hdel as -> Hs.
  rewrite (try_except_ValueError_ret _ _ _ _ _ Hrun), Hs. reflexivity.
Qed.

(** X22: [create_new_category] and [read_users_me] sit behind the gate.
    When the credential of the request does not resolve to a user, the
    failure, of status 401, is the answer of the endpoint and the store is as
    before; when it resolves, [read_users_me] answers that user. *)
Theorem category_creation_and_me_gated
    (db : DB) (now : datetime) (request : Request) :
  (∀ e, fst (run_request (Depends_get_current_user now request) db) = inl e →
        (∃ detail headers, e = HTTPException 401 detail headers)
        ∧ (∀ category,
              run_request (create_new_category now request category) db
              = (inl e, db))
        ∧ run_request (read_users_me now request) db = (inl e, db))
  ∧ (∀ u, fst (run_request (Depends_get_current_user now request) db) = inr u →
          run_request (read_users_me now request) db = (inr u, db)).
Proof.
  split.
  - intros e He. apply Depends_get_current_user_run in He. split.
    { apply (proj2 (Depends_get_current_user_session now request (mkSession db db))).
      rewrite He. reflexivity. }
    split.
    + intros category. unfold run_request, create_new_category.
      rewrite (bind_raise _ _ _ _ _ He). reflexivity.
    + unfold run_request, read_users_me.
      rewrite (bind_raise _ _ _ _ _ He). reflexivity.
  - intros u Hu. apply Depends_get_current_user_run in Hu.
    unfold run_request, read_users_me. rewrite (bind_ret _ _ _ _ _ Hu). reflexivity.
Qed.

End Endpoints.

(** ** The error envelope *)

(** X23: the response that [error_response] builds carries the status code
    both as its HTTP status and in its body, the message as given, and an
    error label that is "Unknown Error" exactly when the code is none of the
    twelve the table lists. *)
Theorem error_response_envelope (status_code : Z) (message : string) :
  let r := error_response status_code message in
  response_status_code r = status_code
  ∧ response_content r !! "status_code" = Some (JInt status_code)
  ∧ response_content r !! "message" = Some (JStr message)
  ∧ ∃ label,
      response_content r !! "error" = Some (JStr label)
      ∧ (label = "Unknown Error"
         ↔ status_code ∉ [400; 401; 403; 404; 405; 408; 409; 429; 500; 502; 503; 504]).
Proof.
  cbn zeta. unfold error_response. cbn [response_status_code response_content].
  split; [reflexivity|]. split; [reflexivity|]. split; [reflexivity|].
  eexists. split; [apply lookup_insert_eq|].
  destruct (decide (status_code ∈
    [400; 401; 403; 404; 405; 408; 409; 429; 500; 502; 503; 504])) as [Hin|Hout].
  - split; [|intros Hno; contradiction].
    intros Hlabel. exfalso.
    repeat (apply elem_of_cons in Hin as [->|Hin];
            [vm_compute in Hlabel; discriminate|]).
    inversion Hin.
  - split; [intros _; exact Hout|]. intros _.
    unfold ERROR_MESSAGES.
    repeat (rewrite lookup_insert_ne
              by (intros Heq; apply Hout; rewrite <- Heq; set_solver)).
    rewrite lookup_empty. reflexivity.
Qed.

(** ** The block that adjusts the stock counter, as a whole *)

(** X24: what the stock-update block of [create_inventory_transaction] does
    to a product the session holds.  An entry adds the quantity to its
    counter; an exit of no more than the counter subtracts it; an exit of
    more raises "Insufficient stock quantity" and a transaction of any other
    type does nothing, both leaving the session as it was.  In every case
    nothing is committed by the block and products with another identifier
    keep their rows. *)
Theorem stock_adjustment_rule (p : Product.t)
    (transaction : InventoryTransactionCreate.t) (s : Session) :
  find_product (pending s) (Product.id p) = Some p →
  let q := InventoryTransactionCreate.quantity transaction in
  let type := InventoryTransactionCreate.type transaction in
  let run := update_stock_quantity p transaction s in
  committed (snd run) = committed s
  ∧ (∀ other, other ≠ Product.id p →
       find_product (pending (snd run)) other = find_product (pending s) other)
  ∧ (type = "entry" →
     ∃ p', fst run = inr p'
           ∧ find_product (pending (snd run)) (Product.id p) = Some p'
           ∧ Product.stock_quantity p' = Product.stock_quantity p + q)
  ∧ (type = "exit" → q ≤ Product.stock_quantity p →
     ∃ p', fst run = inr p'
           ∧ find_product (pending (snd run)) (Product.id p) = Some p'
           ∧ Product.stock_quantity p' = Product.stock_quantity p - q)
  ∧ (type = "exit" → Product.stock_quantity p < q →
     run = (inl (ValueError "Insufficient stock quantity"), s))
  ∧ (type ≠ "entry" → type ≠ "exit" → run = (inr p, s)).
Proof.
  intros Hp q type run.
  destruct (update_stock_quantity_rule p transaction s Hp) as (Hentry & Hexit & Hlack).
  assert (∀ v, committed (snd (setattr with_products Product.id p
                                 (Product.set_stock_quantity v) s)) = committed s
               ∧ ∀ other, other ≠ Product.id p →
                   find_product
                     (pending (snd (setattr with_products Product.id p
                                      (Product.set_stock_quantity v) s))) other
                   = find_product (pending s) other) as Hframe.
  { intros v. split; [reflexivity|]. intros other Hother.
    unfold find_product. cbn [setattr bind modify_pending ret snd pending
      with_products products].
    apply (head_filter_rewritten_other Product.id (Product.id p) other
             (Product.set_stock_quantity v)); [reflexivity | congruence]. }
  assert (committed (snd run) = committed s
          ∧ ∀ other, other ≠ Product.id p →
              find_product (pending (snd run)) other = find_product (pending s) other)
    as [Hcommitted Hothers].
  { subst run.
    destruct (String.eqb_spec (InventoryTransactionCreate.type transaction) "entry")
      as [He|He].
    { rewrite update_stock_quantity_entry by exact He. apply Hframe. }
    destruct (String.eqb_spec (InventoryTransactionCreate.type transaction) "exit")
      as [Hx|Hx].
    { destruct (Z.lt_ge_cases (Product.stock_quantity p)
                  (InventoryTransactionCreate.quantity transaction)) as [Hlt|Hge].
      - rewrite update_stock_quantity_exit_insufficient by assumption.
        split; [reflexivity | intros; reflexivity].
      - rewrite update_stock_quantity_exit by assumption. apply Hframe. }
    rewrite update_stock_quantity_other by assumption.
    split; [reflexivity | intros; reflexivity]. }
  split; [exact Hcommitted|]. split; [exact Hothers|].
  split; [exact Hentry|]. split; [exact Hexit|]. split; [exact Hlack|].
  intros He Hx. subst run type. now apply update_stock_quantity_other.
Qed.

(** * Instances of the further properties *)

Lemma create_product_unknown_category_witness :
  run_request
    (create_product (E := Demo.env)
       (ProductCreate.mk "Mallet" None 12%float 7 None "c9" "u1") "u1") Demo.db
  = (inl (ValueError "Category not found"), Demo.db).
Proof.
  apply (create_product_unknown_category (E := Demo.env)). reflexivity.
Defined.

Lemma create_product_round_trip_witness :
  ∃ p db',
    run_request (create_product (E := Demo.env) Fixture.mallet "u1") Demo.db
    = (inr p, db')
    ∧ Product.name p = "Mallet"
    ∧ Product.stock_quantity p = 7
    ∧ products db' ≡ₚ [p; Demo.hammer]
    ∧ run_request (get_product (Product.id p)) db' = (inr (Some p), db').
Proof.
  destruct (create_product_round_trip (E := Demo.env) Demo.db Fixture.mallet "u1"
              Demo.tools Demo.alice eq_refl ltac:(left; reflexivity) eq_refl
              ltac:(unfold fits_integer; cbn; lia) eq_refl)
    as (p & db' & Hrun & Hname & _ & _ & Hstock & _ & _ & _ & Hrows & _ & _ & _ & Hget).
  exists p, db'. repeat split; assumption.
Defined.

Lemma update_product_last_write_wins_witness :
  run_request (update_product "p1" Fixture.mallet)
    (snd (run_request
            (update_product "p1"
               (ProductCreate.mk "Maul" None 30%float 2 None "c1" "u1"))
            Fixture.db2))
  = run_request (update_product "p1" Fixture.mallet) Fixture.db2.
Proof.
  apply (update_product_last_write_wins Fixture.db2 "p1"
           (ProductCreate.mk "Maul" None 30%float 2 None "c1" "u1") Fixture.mallet
           Demo.tools).
  - reflexivity.
  - unfold fits_integer. cbn. lia.
Defined.

Lemma delete_product_removes_only_product_witness :
  (∃ db',
      run_request (delete_product "p3") Fixture.db3 = (inr Fixture.chisel, db')
      ∧ find_product db' "p3" = None
      ∧ find_product db' "p2" = Some Fixture.saw
      ∧ inventory_transactions db' = inventory_transactions Fixture.db3)
  ∧ (∃ msg,
        run_request (delete_product "p1") Fixture.db3
        = (inl (IntegrityError msg), Fixture.db3)).
Proof.
  split.
  - destruct (proj1 (delete_product_removes_only_product Fixture.db3 "p3"
                       Fixture.chisel eq_refl) eq_refl)
      as (db' & Hrun & Hgone & Hothers & _ & _ & Hledger).
    exists db'. split; [exact Hrun|]. split; [exact Hgone|]. split; [|exact Hledger].
    rewrite Hothers by discriminate. reflexivity.
  - apply (proj2 (delete_product_removes_only_product Fixture.db3 "p1"
                    Demo.hammer eq_refl)).
    discriminate.
Defined.

Lemma product_store_keeps_stock_nonneg_witness :
  stock_nonneg
    (snd (run_request (update_product "p1" Fixture.mallet) Fixture.db2)).
Proof.
  apply (proj1 (proj2 (product_store_keeps_stock_nonneg (E := Demo.env) Fixture.db2
                         ltac:(unfold stock_nonneg; cbn;
                                repeat (constructor; [cbn; lia|]);
                                constructor)))).
  reflexivity.
Defined.

Lemma create_category_twice_witness :
  ∃ c db',
    run_request (create_category (C := Fixture.creation) Fixture.garden) Demo.db
    = (inr c, db')
    ∧ categories db' = [Demo.tools; c]
    ∧ run_request
        (create_category (C := Fixture.creation)
           (CategoryCreate.mk "Garden" (Some "Outdoor"))) db'
      = (inl (ValueError "Category already exists"), db').
Proof.
  destruct (create_category_twice (C := Fixture.creation) Demo.db Fixture.garden
              (CategoryCreate.mk "Garden" (Some "Outdoor")) eq_refl eq_refl eq_refl)
    as (c & db' & Hrun & _ & _ & Hrows & _ & Hagain).
  exists c, db'. repeat split; assumption.
Defined.

Lemma create_category_keeps_names_distinct_witness :
  List.NoDup
    (map Category.name
       (categories
          (snd (run_request (create_category (C := Fixture.creation) Fixture.garden)
                  Demo.db)))).
Proof.
  apply (create_category_keeps_names_distinct (C := Fixture.creation)).
  repeat constructor. intros [].
Defined.

Lemma update_category_can_duplicate_name_witness :
  let db := mkDB [] [Demo.tools; Category.mk "c2" "Garden" None] [] [] in
  ∃ c' db',
    run_request (update_category "c2" (CategoryCreate.mk "Tools" None)) db
    = (inr c', db')
    ∧ Category.name <$> find_category db' "c1" = Some "Tools"
    ∧ Category.name <$> find_category db' "c2" = Some "Tools".
Proof.
  intros db.
  destruct (update_category_can_duplicate_name db (Category.mk "c2" "Garden" None)
              Demo.tools None eq_refl eq_refl ltac:(discriminate))
    as (c' & db' & Hrun & Hc & Hother & Hname).
  exists c', db'. split; [exact Hrun|].
  cbn in Hc, Hother, Hname. rewrite Hc, Hother. cbn. rewrite Hname. split; reflexivity.
Defined.

Lemma delete_category_referenced_refused_witness :
  ∃ msg,
    run_request (delete_category "c1") Demo.db = (inl (IntegrityError msg), Demo.db)
    ∧ run_request (delete_existing_category "c1") Demo.db
      = (inl (IntegrityError msg), Demo.db)
    ∧ run_request (read_category "c1") Demo.db = (inr Demo.tools, Demo.db).
Proof.
  exact (delete_category_referenced_refused Demo.db "c1" "p1" Demo.tools Demo.hammer
           eq_refl eq_refl eq_refl).
Defined.

Lemma list_transactions_window_witness :
  ∃ rows,
    run_request (list_transactions (C := Fixture.creation) "p1" 1 5) Fixture.db2
    = (inr rows, Fixture.db2)
    ∧ Z.of_nat (length rows) = 1.
Proof.
  destruct (list_transactions_window (C := Fixture.creation) Fixture.db2 "p1" 1 5
              ltac:(lia) ltac:(lia))
    as (rows & Hrun & Hlen & _).
  exists rows. split; [exact Hrun|]. rewrite Hlen. reflexivity.
Defined.

Lemma list_products_categories_window_witness :
  ∃ rows,
    run_request (list_products (C := Fixture.creation) 0 1) Fixture.db2
    = (inr rows, Fixture.db2)
    ∧ Z.of_nat (length rows) = 1.
Proof.
  destruct (proj1 (list_products_categories_window (C := Fixture.creation)
                     Fixture.db2 0 1 ltac:(lia) ltac:(lia)))
    as (rows & Hrun & Hlen & _).
  exists rows. split; [exact Hrun|]. rewrite Hlen. reflexivity.
Defined.

Lemma register_user_email_taken_witness :
  run_request
    (register_user (C := Fixture.creation) "s"
       (UserCreate.mk "Alice again" "a@x.com" "pw9")) Demo.db
  = (inl (HTTPException 400 "Email already registered" []), Demo.db).
Proof.
  apply (register_user_email_taken (C := Fixture.creation) Demo.db "s"
           (UserCreate.mk "Alice again" "a@x.com" "pw9") Demo.alice).
  reflexivity.
Defined.

Lemma register_user_keeps_emails_distinct_witness :
  List.NoDup
    (map User.email
       (users
          (snd (run_request (register_user (C := Fixture.creation) "s" Fixture.bob)
                  Demo.db)))).
Proof.
  apply (register_user_keeps_emails_distinct (C := Fixture.creation)).
  repeat constructor. intros [].
Defined.

Lemma register_then_authenticate_witness :
  ∃ u db',
    run_request (register_user (C := Fixture.creation) "s" Fixture.bob) Demo.db
    = (inr u, db')
    ∧ User.password u = "s$pw2"
    ∧ run_request (authenticate_user (E := Demo.env) "b@x.com" "pw2") db'
      = (inr (Some u), db')
    ∧ run_request (authenticate_user (E := Demo.env) "b@x.com" "pw3") db'
      = (inr None, db').
Proof.
  destruct (register_then_authenticate (E := Demo.env) (C := Fixture.creation)
              Demo.db "s" Fixture.bob eq_refl
              ltac:(intros u [<-|[]]; discriminate) eq_refl)
    as (u & db' & Hrun & _ & _ & Hpw & _ & Hok & Hbad & _).
  exists u, db'. split; [exact Hrun|]. split; [rewrite Hpw; reflexivity|].
  split; [exact Hok|]. apply Hbad. rewrite Hpw. reflexivity.
Defined.

Lemma login_then_current_user_witness :
  ∃ token,
    run_request (login_for_access_token (E := Demo.env) 0 "a@x.com" "pw1") Demo.db
    = (inr (<["token_type" := "bearer"]> {[ "access_token" := token ]}), Demo.db)
    ∧ run_request (read_users_me (E := Demo.env) 60000000 (mkRequest (Some token)))
        Demo.db
      = (inr Demo.alice, Demo.db).
Proof.
  exact (login_then_current_user (E := Demo.env) Demo.db 0 60000000 "a@x.com" "pw1"
           Demo.alice {[ "sub" := VStr "a@x.com" ]} eq_refl eq_refl eq_refl).
Defined.

Lemma endpoints_missing_row_witness :
  run_request
    (create_transaction (E := Demo.env) 0 (mkRequest (Some "a@x.com")) "p9"
       (Demo.entry 1)) Demo.db
  = (inl (HTTPException 400 "Product not found" []), Demo.db)
  ∧ run_request
      (delete_existing_product (E := Demo.env) 0 (mkRequest (Some "a@x.com")) "p9")
      Demo.db
    = (inl (HTTPException 404 "Product not found" []), Demo.db).
Proof.
  destruct (endpoints_missing_row (E := Demo.env) (C := Fixture.creation) Demo.db 0
              (mkRequest (Some "a@x.com")) Demo.alice eq_refl)
    as (_ & Hrecord & _ & _ & Hdelete & _).
  split; [apply Hrecord | apply Hdelete]; reflexivity.
Defined.

Lemma create_new_product_owner_witness :
  (∃ p db',
      run_request
        (create_new_product (E := Demo.env) 0 (mkRequest (Some "a@x.com"))
           (ProductCreate.mk "Mallet" None 12%float 7 None "c1" "someone-else"))
        Demo.db
      = (inr p, db')
      ∧ Product.user_id p = "u1")
  ∧ (∃ msg,
        run_request
          (create_new_product (E := Demo.env) 0 (mkRequest (Some "a@x.com"))
             (ProductCreate.mk "Mallet" None 12%float 2147483648 None "c1"
                "someone-else"))
          Demo.db
        = (inl (DataError msg), Demo.db)).
Proof.
  split.
  - destruct (proj1 (create_new_product_owner (E := Demo.env) Demo.db 0
                       (mkRequest (Some "a@x.com")) Demo.alice
                       (ProductCreate.mk "Mallet" None 12%float 7 None "c1"
                          "someone-else")
                       Demo.tools eq_refl eq_refl eq_refl)
                ltac:(unfold fits_integer; cbn; lia))
      as (p & db' & Hrun & Howner & _).
    exists p, db'. split; [exact Hrun | exact Howner].
  - destruct (proj2 (create_new_product_owner (E := Demo.env) Demo.db 0
                       (mkRequest (Some "a@x.com")) Demo.alice
                       (ProductCreate.mk "Mallet" None 12%float 2147483648 None "c1"
                          "someone-else")
                       Demo.tools eq_refl eq_refl eq_refl)
                ltac:(unfold fits_integer; cbn; lia))
      as (msg & Hrun).
    exists msg. exact (Hrun "someone-else").
Defined.

Lemma delete_then_not_found_witness :
  ∃ db',
    run_request
      (delete_existing_product (E := Demo.env) 0 (mkRequest (Some "a@x.com")) "p1")
      Demo.db
    = (inr Demo.hammer, db')
    ∧ run_request (read_product "p1") db'
      = (inl (HTTPException 404 "Product not found" []), db').
Proof.
  destruct (delete_then_not_found (E := Demo.env) Demo.db 0
              (mkRequest (Some "a@x.com")) Demo.alice "p1" Demo.hammer
              eq_refl eq_refl eq_refl)
    as (db' & Hrun & Hread & _).
  exists db'. split; assumption.
Defined.

Lemma stock_adjustment_rule_witness :
  ∃ p',
    fst (update_stock_quantity Demo.hammer (Demo.exit 3) (mkSession Demo.db Demo.db))
    = inr p'
    ∧ Product.stock_quantity p' = 2.
Proof.
  destruct (stock_adjustment_rule Demo.hammer (Demo.exit 3)
              (mkSession Demo.db Demo.db) eq_refl)
    as (_ & _ & _ & Hexit & _).
  destruct (Hexit eq_refl ltac:(cbn; lia)) as (p' & Hrun & _ & Hstock).
  exists p'. split; [exact Hrun | exact Hstock].
Defined.
